(** * react-persistant-state: the persistent state store

    A shallow embedding of [createPersistantStateStore] (the full variant with
    the whole-store subscription, and the reduced variant without it) and the
    properties of its operations.

    Conventions of the embedding.
    - The closure state of one [createPersistantStateStore()] call ([store],
      [listeners], [storeListeners]) is threaded explicitly as a [State].
    - [store] and [listeners] are plain object literals [{}]: their own
      properties are a [gmap], and every lookup that misses the own properties
      continues in [Object.prototype], as the [in] operator and property reads
      do in JavaScript.  The built-in prototypes are the unmodified ones of
      the language.  One assignment is outside the model: [__proto__] set to
      an object or [null], which replaces the prototype of the store; the
      operation then ends in [Unmodelled].
    - Listeners are callbacks owned by the rendering engine.  They are
      identified by their function identity, and running one is recorded in
      the [calls] log of the state, oldest call first.
    - Functions supplied by callers (updaters, default producers) are values
      [VFunction a]; what a call returns or throws is given by the parameter
      [call].  Such functions are pure, as React requires of updaters and
      initialisers.
    - Hooks keep their memory between renders in an explicit memo cell. *)

From stdpp Require Import gmap strings list fin_maps.
From Stdlib Require Import ZArith.

Local Open Scope string_scope.
Local Open Scope list_scope.

(** ** JavaScript values *)

(** Identity of an object or a function: a built-in of the realm, or an
    object allocated by the caller. *)
Inductive Addr : Type :=
| Intrinsic (name : string)
| Alloc (n : nat).

(** Numbers are restricted to integers: the store never computes on them. *)
Inductive Value : Type :=
| VUndefined
| VNull
| VBool (b : bool)
| VNumber (z : Z)
| VString (s : string)
| VSymbol (n : nat)
| VObject (a : Addr)
| VFunction (a : Addr).

#[global] Instance Addr_eq_dec : EqDecision Addr.
Proof. solve_decision. Defined.

#[global] Instance Value_eq_dec : EqDecision Value.
Proof. solve_decision. Defined.

(** [const NotExists = Symbol("notExists")]: the symbol of the module. *)
Definition NotExists : Value := VSymbol 0.

(** [typeof v === "function"] *)
Definition isFunction (v : Value) : bool :=
  match v with
  | VFunction _ => true
  | _ => false
  end.

(** ToBoolean, for the values of the model. *)
Definition truthy (v : Value) : bool :=
  match v with
  | VUndefined | VNull => false
  | VBool b => b
  | VNumber z => negb (Z.eqb z 0)
  | VString s => negb (String.eqb s "")
  | VSymbol _ | VObject _ | VFunction _ => true
  end.

(** [type Listener = () => void], by function identity. *)
Definition Listener : Type := nat.

(** What a call of a caller function does. *)
Inductive CallResult : Type :=
| Returned (v : Value)
| Raised (e : Value).

(** What can be thrown: a [TypeError] of the engine, or a caller's value. *)
Inductive Exn : Type :=
| TypeError
| Thrown (e : Value).

(** ** Plain objects used as maps *)

Module JSObject.

(** The property names of [Object.prototype]. *)
Definition prototypeKeys : list string :=
  [ "constructor"; "__defineGetter__"; "__defineSetter__"; "hasOwnProperty";
    "__lookupGetter__"; "__lookupSetter__"; "isPrototypeOf";
    "propertyIsEnumerable"; "toString"; "valueOf"; "__proto__";
    "toLocaleString" ].

Definition inherited (k : string) : bool := bool_decide (k ∈ prototypeKeys).

(** Result of a property read [o[k]] on an object literal. *)
Inductive Lookup (A : Type) : Type :=
| Own (a : A)
| Inherited
| Missing.
Arguments Own {A} a.
Arguments Inherited {A}.
Arguments Missing {A}.

Definition get {A : Type} (k : string) (o : gmap string A) : Lookup A :=
  match o !! k with
  | Some a => Own a
  | None => if inherited k then Inherited else Missing
  end.

(** [k in o] *)
Definition has {A : Type} (k : string) (o : gmap string A) : bool :=
  match get k o with
  | Missing => false
  | _ => true
  end.

(** [o[k] = v].  An own property is overwritten.  Otherwise the data
    properties of [Object.prototype] are writable, so the assignment
    creates an own property, except for the accessor [__proto__]: its
    setter ignores a primitive, and installs an object or [null] as the
    prototype of [o].  The model does not follow an object whose prototype
    was replaced: [None]. *)
Definition set {A : Type} (replacesPrototype : A → bool)
    (k : string) (v : A) (o : gmap string A) : option (gmap string A) :=
  match o !! k with
  | Some _ => Some (<[k:=v]> o)
  | None =>
      if String.eqb k "__proto__"
      then if replacesPrototype v then None else Some o
      else Some (<[k:=v]> o)
  end.

(** The value read through an object literal for an inherited name. *)
Definition prototypeValue (k : string) : Value :=
  if String.eqb k "__proto__" then VObject (Intrinsic "Object.prototype")
  else if String.eqb k "constructor" then VFunction (Intrinsic "Object")
  else VFunction (Intrinsic ("Object.prototype." +:+ k)).

End JSObject.

Import JSObject.

(** ** The state of one store *)

Record State : Type := mkState {
  store : gmap string Value;
  listeners : gmap string (list Listener);
  storeListeners : list Listener;
  calls : list Listener
}.

(** The closure state right after [createPersistantStateStore()]. *)
Definition initialState : State :=
  {| store := ∅; listeners := ∅; storeListeners := []; calls := [] |}.

Definition setStore (o : gmap string Value) (s : State) : State :=
  {| store := o; listeners := listeners s;
     storeListeners := storeListeners s; calls := calls s |}.

Definition setListeners (o : gmap string (list Listener)) (s : State) : State :=
  {| store := store s; listeners := o;
     storeListeners := storeListeners s; calls := calls s |}.

Definition setStoreListeners (ls : list Listener) (s : State) : State :=
  {| store := store s; listeners := listeners s;
     storeListeners := ls; calls := calls s |}.

Definition logCall (l : Listener) (s : State) : State :=
  {| store := store s; listeners := listeners s;
     storeListeners := storeListeners s; calls := calls s ++ [l] |}.

(** ** Operations: state passing with exceptions *)

Inductive Outcome (A : Type) : Type :=
| Return (a : A) (s : State)
| Throw (e : Exn) (s : State)
| Unmodelled.
Arguments Return {A} a s.
Arguments Throw {A} e s.
Arguments Unmodelled {A}.

Definition M (A : Type) : Type := State → Outcome A.

Definition ret {A : Type} (a : A) : M A := λ s, Return a s.

Definition bind {A B : Type} (m : M A) (f : A → M B) : M B :=
  λ s, match m s with
       | Return a s' => f a s'
       | Throw e s' => Throw e s'
       | Unmodelled => Unmodelled
       end.

Declare Scope js_scope.
Delimit Scope js_scope with js.
Notation "x <- m ;; k" := (bind m (λ x, k))
  (at level 100, m at next level, right associativity) : js_scope.
Notation "m ;; k" := (bind m (λ _, k))
  (at level 100, right associativity) : js_scope.
Local Open Scope js_scope.

Definition gets {A : Type} (f : State → A) : M A := λ s, Return (f s) s.
Definition modify (f : State → State) : M unit := λ s, Return tt (f s).
Definition throw {A : Type} (e : Exn) : M A := λ s, Throw e s.

(** [store[k]] *)
Definition readStore (k : string) (s : State) : Value :=
  match get k (store s) with
  | Own v => v
  | Inherited => prototypeValue k
  | Missing => VUndefined
  end.

(** The values that the [__proto__] setter installs as a prototype. *)
Definition replacesPrototype (v : Value) : bool :=
  match v with
  | VNull | VObject _ | VFunction _ => true
  | _ => false
  end.

(** [store[k] = v] *)
Definition assignStore (k : string) (v : Value) : M unit :=
  λ s, match set replacesPrototype k v (store s) with
       | Some o => Return tt (setStore o s)
       | None => Unmodelled
       end.

(** [listeners[k] = ls]; an array is an object. *)
Definition assignListeners (k : string) (ls : list Listener) : M unit :=
  λ s, match set (λ _, true) k ls (listeners s) with
       | Some o => Return tt (setListeners o s)
       | None => Unmodelled
       end.

(** [l()] *)
Definition invoke (l : Listener) : M unit := modify (logCall l).

(** [ls.forEach(f)] *)
Fixpoint forEach (ls : list Listener) (f : Listener → M unit) : M unit :=
  match ls with
  | [] => ret tt
  | l :: ls' => f l ;; forEach ls' f
  end.

(** Dependency array of the memo of [useState], compared with [Object.is]. *)
Record Deps : Type := mkDeps {
  depSnapshot : Value;
  depDefaultValue : Value;
  depStateId : string
}.

#[global] Instance Deps_eq_dec : EqDecision Deps.
Proof. solve_decision. Defined.

(** Memo cell of one component instance: the dependencies and the value of
    the last computation. *)
Record Memo : Type := mkMemo {
  memoDeps : Deps;
  memoValue : Value
}.

Section Store.

(** The behaviour of the functions supplied by callers. *)
Variable call : Addr → list Value → CallResult.

(** [f(args)] *)
Definition callFunction (f : Value) (args : list Value) : M Value :=
  match f with
  | VFunction a =>
      match call a args with
      | Returned v => ret v
      | Raised e => throw (Thrown e)
      end
  | _ => throw TypeError
  end.

(** [subscribeStore]; the closure it returns is [unsubscribeStore]. *)
Definition subscribeStore (listener : Listener) : M unit :=
  modify (λ s, setStoreListeners (storeListeners s ++ [listener]) s).

Definition unsubscribeStore (listener : Listener) : M unit :=
  modify (λ s, setStoreListeners
                 (filter (λ l, l ≠ listener) (storeListeners s)) s).

(** [subscribeState]; the closure it returns is [unsubscribeState]. *)
Definition subscribeState (stateId : string) (listener : Listener) : M unit :=
  present <- gets (λ s, has stateId (listeners s)) ;;
  (if negb present then assignListeners stateId [] else ret tt) ;;
  entry <- gets (λ s, get stateId (listeners s)) ;;
  match entry with
  | Own ls => modify (λ s, setListeners (<[stateId := ls ++ [listener]]> (listeners s)) s)
  | Inherited | Missing => throw TypeError
  end.

Definition unsubscribeState (stateId : string) (listener : Listener) : M unit :=
  entry <- gets (λ s, get stateId (listeners s)) ;;
  match entry with
  | Own ls => assignListeners stateId (filter (λ l, l ≠ listener) ls)
  | Inherited | Missing => throw TypeError
  end.

(** [getStateSnapshot] *)
Definition getStateSnapshot (stateId : string) (s : State) : Value :=
  if negb (has stateId (store s)) then NotExists else readStore stateId s.

(** [notifyState] *)
Definition notifyState (stateId : string) : M unit :=
  entry <- gets (λ s, get stateId (listeners s)) ;;
  match entry with
  | Own ls => forEach ls invoke
  | Missing => forEach [] invoke
  | Inherited => throw TypeError
  end.

(** The setter returned by [setStateBuilder(stateId)]. *)
Definition setStateBuilder (stateId : string) (valueOrUpdator : Value) : M unit :=
  (if isFunction valueOrUpdator
   then prev <- gets (readStore stateId) ;;
        next <- callFunction valueOrUpdator [prev] ;;
        assignStore stateId next
   else assignStore stateId valueOrUpdator) ;;
  notifyState stateId.

(** [useSyncExternalStore(subscribe, getSnapshot)] during a render: the
    current snapshot.  The engine subscribes through [subscribeState] when
    it commits the render. *)
Definition useSyncExternalStore {A : Type} (getSnapshot : State → A) : M A :=
  gets getSnapshot.

(** [useMemo(factory, deps)]: the factory runs on the first render and
    when a dependency differs from the previous render. *)
Definition useMemo (cell : option Memo) (factory : M Value) (deps : Deps)
    : M (Value * option Memo) :=
  match cell with
  | Some m =>
      if decide (memoDeps m = deps) then ret (memoValue m, cell)
      else v <- factory ;; ret (v, Some (mkMemo deps v))
  | None => v <- factory ;; ret (v, Some (mkMemo deps v))
  end.

(** The function memoised by [useState]. *)
Definition afterSnapshot (stateId : string) (defaultValue snapshot : Value)
    : M Value :=
  if decide (snapshot = NotExists ∧ defaultValue ≠ VUndefined) then
    finalDefaultValue <-
      (if isFunction defaultValue then callFunction defaultValue []
       else ret defaultValue) ;;
    assignStore stateId finalDefaultValue ;;
    notifyState stateId ;;
    ret finalDefaultValue
  else if decide (snapshot = NotExists) then ret VUndefined
  else ret snapshot.

(** [useState(stateId, defaultValue)] in one render of a component whose
    memo cell is [cell]; an omitted [defaultValue] is [VUndefined].  The
    result is the current value and the new memo cell; the setter of the
    returned pair is [setStateBuilder stateId]. *)
Definition useState (cell : option Memo) (stateId : string)
    (defaultValue : Value) : M (Value * option Memo) :=
  snapshot <- useSyncExternalStore (getStateSnapshot stateId) ;;
  useMemo cell (afterSnapshot stateId defaultValue snapshot)
          (mkDeps snapshot defaultValue stateId).

(** [deleteState] *)
Definition deleteState (stateId : string) : M unit :=
  modify (λ s, setStore (delete stateId (store s)) s) ;;
  modify (λ s, setListeners (delete stateId (listeners s)) s).

(** [useStore]: the snapshot is the live [store] object. *)
Definition useStore : M (gmap string Value) :=
  useSyncExternalStore store.

End Store.


(** ** The reduced variant

    The second file of the repository is the same store without
    [storeListeners], [subscribeStore] and [useStore]; its [useState] adds an
    effect whose body is empty. *)

Module Reduced.

(** [useEffect(() => {}, deps)]: nothing happens during the render, and the
    effect that runs after the commit has an empty body. *)
Definition useEffect (deps : Deps) : M unit := ret tt.

Definition useState (call : Addr → list Value → CallResult)
    (cell : option Memo) (stateId : string) (defaultValue : Value)
    : M (Value * option Memo) :=
  snapshot <- useSyncExternalStore (getStateSnapshot stateId) ;;
  result <- useMemo cell (afterSnapshot call stateId defaultValue snapshot)
                    (mkDeps snapshot defaultValue stateId) ;;
  useEffect (mkDeps snapshot defaultValue stateId) ;;
  ret result.

End Reduced.

(** ** Vocabulary of the properties *)

(** The listeners registered for a key, in registration order. *)
Definition registered (stateId : string) (s : State) : list Listener :=
  default [] (listeners s !! stateId).

(** The state after the listeners [ls] ran, in this order. *)
Definition logCalls (ls : list Listener) (s : State) : State :=
  {| store := store s; listeners := listeners s;
     storeListeners := storeListeners s; calls := calls s ++ ls |}.

(** The state in which an operation leaves the store, when it returns and
    when it throws. *)
Definition stateAfter {A : Type} (o : Outcome A) : option State :=
  match o with
  | Return _ s => Some s
  | Throw _ s => Some s
  | Unmodelled => None
  end.

(** The default of [useState]: a function is called as a producer without
    arguments, any other value is taken as it is. *)
Definition finalDefault (call : Addr → list Value → CallResult)
    (defaultValue : Value) : CallResult :=
  match defaultValue with
  | VFunction a => call a []
  | _ => Returned defaultValue
  end.

(** The memo of [useState] runs its function again: first render of the
    component, or a dependency changed since the previous render. *)
Definition recomputes (cell : option Memo) (deps : Deps) : bool :=
  match cell with
  | Some m => negb (bool_decide (memoDeps m = deps))
  | None => true
  end.

(** The condition under which a render of [useState] commits the default:
    the memo function runs, the snapshot is the sentinel, the default is not
    [undefined], and a producer returns. *)
Definition materializes (call : Addr → list Value → CallResult)
    (cell : option Memo) (stateId : string) (defaultValue : Value)
    (s : State) : bool :=
  recomputes cell (mkDeps (getStateSnapshot stateId s) defaultValue stateId)
  && bool_decide (getStateSnapshot stateId s = NotExists)
  && bool_decide (defaultValue ≠ VUndefined)
  && match finalDefault call defaultValue with
     | Returned _ => true
     | Raised _ => false
     end.

(** A store in which no caller value is the symbol of the module. *)
Definition sentinelFree (s : State) : Prop :=
  ∀ k, store s !! k ≠ Some NotExists.

(** Caller values: callers cannot name the symbol of the module. *)
Definition callerValue (v : Value) : Prop := v ≠ NotExists.

Definition callerFunctions (call : Addr → list Value → CallResult) : Prop :=
  ∀ f args v, call f args = Returned v → callerValue v.

(** Caller functions cannot make the symbol of the module: one returns it
    only if it received it as an argument. *)
Definition symbolFromArguments (call : Addr → list Value → CallResult) : Prop :=
  ∀ f args, call f args = Returned NotExists → NotExists ∈ args.

(** The value that the function memoised by [useState] returns for given
    dependencies, when it returns. *)
Definition memoResult (call : Addr → list Value → CallResult)
    (deps : Deps) : option Value :=
  if decide (depSnapshot deps = NotExists ∧ depDefaultValue deps ≠ VUndefined)
  then match finalDefault call (depDefaultValue deps) with
       | Returned v => Some v
       | Raised _ => None
       end
  else if decide (depSnapshot deps = NotExists) then Some VUndefined
  else Some (depSnapshot deps).

(** A memo cell as renders of [useState] leave it. *)
Definition cellSound (call : Addr → list Value → CallResult)
    (cell : option Memo) : Prop :=
  ∀ m, cell = Some m → memoResult call (memoDeps m) = Some (memoValue m).

(** Replacing the state inside an outcome. *)
Definition mapState {A : Type} (f : State → State) (o : Outcome A) : Outcome A :=
  match o with
  | Return a s => Return a (f s)
  | Throw e s => Throw e (f s)
  | Unmodelled => Unmodelled
  end.

(** An operation that neither reads nor writes [storeListeners]. *)
Definition ignoresStoreListeners {A : Type} (m : M A) : Prop :=
  ∀ ls s, m (setStoreListeners ls s) = mapState (setStoreListeners ls) (m s).

(** Caller functions of the examples: [Alloc 0] returns its argument,
    [Alloc 1] throws, [Alloc 2] returns [undefined], [Alloc 3] adds one to
    a number. *)
Definition exampleCall (a : Addr) (args : list Value) : CallResult :=
  match a, args with
  | Alloc 0, v :: _ => Returned v
  | Alloc 1, _ => Raised (VString "boom")
  | Alloc 3, VNumber z :: _ => Returned (VNumber (z + 1))
  | _, _ => Returned VUndefined
  end.

(** A component rendered once with a literal default on an empty store:
    its memo cell and the store afterwards; then the key is deleted. *)
Definition mountedDeps : Deps := mkDeps NotExists (VString "d") "k".
Definition mountedCell : option Memo := Some (mkMemo mountedDeps (VString "d")).
Definition mountedState : State := setStore {["k" := VString "d"]} initialState.

(** The store after the listener 1 subscribed to the key [a]. *)
Definition subscribedState : State := setListeners {["a" := [1]]} initialState.

(** ** Runs of the store

    What callers and the rendering engine can do with one store.  The closure
    returned by a subscription is listed as an operation of its own; it can
    only be called after the subscription, which the runs below do not
    enforce. *)
Inductive Operation : Type :=
| OpSubscribeStore (listener : Listener)
| OpUnsubscribeStore (listener : Listener)
| OpSubscribeState (stateId : string) (listener : Listener)
| OpUnsubscribeState (stateId : string) (listener : Listener)
| OpSetState (stateId : string) (valueOrUpdator : Value)
| OpUseState (cell : option Memo) (stateId : string) (defaultValue : Value)
| OpDeleteState (stateId : string)
| OpUseStore.

(** The state after an operation, whether it returned or threw. *)
Definition perform (call : Addr → list Value → CallResult) (op : Operation)
    (s : State) : option State :=
  match op with
  | OpSubscribeStore l => stateAfter (subscribeStore l s)
  | OpUnsubscribeStore l => stateAfter (unsubscribeStore l s)
  | OpSubscribeState k l => stateAfter (subscribeState k l s)
  | OpUnsubscribeState k l => stateAfter (unsubscribeState k l s)
  | OpSetState k v => stateAfter (setStateBuilder call k v s)
  | OpUseState cell k d => stateAfter (useState call cell k d s)
  | OpDeleteState k => stateAfter (deleteState k s)
  | OpUseStore => stateAfter (useStore s)
  end.

(** Operations whose arguments are caller values. *)
Definition callerOperation (op : Operation) : Prop :=
  match op with
  | OpSetState _ v => callerValue v
  | OpUseState _ _ d => callerValue d
  | _ => True
  end.

(** The states that a store reaches while its prototype is the original
    [Object.prototype]: the fresh store, and what operations with caller
    values make of it.  A setter call that installs an object, a function or
    [null] as the prototype of the store ends in [Unmodelled] and has no
    successor here: the runs stop before such a call. *)
Inductive reachable (call : Addr → list Value → CallResult) : State → Prop :=
| reachable_initial : reachable call initialState
| reachable_step (s s' : State) (op : Operation) :
    reachable call s → callerOperation op → perform call op s = Some s' →
    reachable call s'.

(** No listener entry under a name of [Object.prototype]. *)
Definition listenersClean (s : State) : Prop :=
  ∀ k, inherited k = true → listeners s !! k = None.

(** What a setter or a render of the key [k] can make of a state: the store
    is as before or has a new value under [k], and the log grew by nothing or
    by the listeners of [k]. *)
Definition wroteKey (k : string) (s s' : State) : Prop :=
  ∃ o extra,
    s' = logCalls extra (setStore o s)
    ∧ (o = store s
       ∨ ∃ v, o = <[k:=v]> (store s)
              ∧ (k ≠ "__proto__" ∨ is_Some (store s !! k)))
    ∧ (extra = [] ∨ extra = registered k s).

(** The value that a call of the setter is about to store: the argument,
    or what the updater makes of the raw value of [store[k]]. *)
Definition newValue (call : Addr → list Value → CallResult) (k : string)
    (valueOrUpdator : Value) (s : State) : CallResult :=
  match valueOrUpdator with
  | VFunction f => call f [readStore k s]
  | _ => Returned valueOrUpdator
  end.

(** Caller functions that return [undefined]. *)
Definition undefinedCall (a : Addr) (args : list Value) : CallResult :=
  Returned VUndefined.

(** The store after the listeners 1 and 2 subscribed to the key [a]. *)
Definition twoListenersState : State :=
  setListeners {["a" := [1; 2]]} initialState.

(** ** Properties *)

Section Properties.

Variable call : Addr → list Value → CallResult.

(** *** Object literals *)

Lemma get_own {A : Type} (k : string) (o : gmap string A) (a : A) :
  o !! k = Some a → get k o = Own a.
Proof. intros H. unfold get. by rewrite H. Qed.

Lemma get_missing {A : Type} (k : string) (o : gmap string A) :
  o !! k = None → inherited k = false → get k o = Missing.
Proof. intros H Hk. unfold get. by rewrite H, Hk. Qed.

Lemma get_inherited {A : Type} (k : string) (o : gmap string A) :
  o !! k = None → inherited k = true → get k o = Inherited.
Proof. intros H Hk. unfold get. by rewrite H, Hk. Qed.

Lemma has_false {A : Type} (k : string) (o : gmap string A) :
  has k o = false ↔ o !! k = None ∧ inherited k = false.
Proof.
  unfold has, get. destruct (o !! k).
  - split; [done | by intros [? ?]].
  - destruct (inherited k); split; try done; by intros [? ?].
Qed.

Lemma inherited_proto : inherited "__proto__" = true.
Proof. reflexivity. Qed.

Lemma not_inherited_proto (k : string) :
  inherited k = false → String.eqb k "__proto__" = false.
Proof.
  intros Hk. destruct (String.eqb_spec k "__proto__") as [->|]; [| done].
  by rewrite inherited_proto in Hk.
Qed.

Lemma set_ordinary {A : Type} (f : A → bool) (k : string) (v : A)
    (o : gmap string A) :
  inherited k = false → set f k v o = Some (<[k:=v]> o).
Proof.
  intros Hk. unfold set. destruct (o !! k); [done |].
  by rewrite (not_inherited_proto k Hk).
Qed.

Lemma set_own {A : Type} (f : A → bool) (k : string) (v a : A)
    (o : gmap string A) :
  o !! k = Some a → set f k v o = Some (<[k:=v]> o).
Proof. intros H. unfold set. by rewrite H. Qed.

Lemma prototypeValue_not_sentinel (k : string) : prototypeValue k ≠ NotExists.
Proof. unfold prototypeValue. repeat case_match; done. Qed.

(** *** Reading *)

Lemma readStore_own (k : string) (v : Value) (s : State) :
  store s !! k = Some v → readStore k s = v.
Proof. intros H. unfold readStore. by rewrite (get_own _ _ _ H). Qed.


Lemma getStateSnapshot_own (k : string) (v : Value) (s : State) :
  store s !! k = Some v → getStateSnapshot k s = v.
Proof.
  intros H. unfold getStateSnapshot, has, readStore.
  by rewrite (get_own _ _ _ H).
Qed.

(** An empty value that was stored is read back as it is: [undefined],
    [null], [false], [0] and the empty string are not the sentinel. *)
Lemma getStateSnapshot_falsy (k : string) (v : Value) (s : State) :
  store s !! k = Some v → truthy v = false →
  getStateSnapshot k s = v ∧ getStateSnapshot k s ≠ NotExists.
Proof.
  intros H Hv. rewrite (getStateSnapshot_own _ _ _ H).
  split; [done |]. by intros ->.
Qed.

Lemma getStateSnapshot_fresh (k : string) (s : State) :
  store s !! k = None → inherited k = false → getStateSnapshot k s = NotExists.
Proof.
  intros H Hk. unfold getStateSnapshot, has. by rewrite (get_missing _ _ H Hk).
Qed.

Lemma getStateSnapshot_inherited (k : string) (s : State) :
  store s !! k = None → inherited k = true →
  getStateSnapshot k s = prototypeValue k.
Proof.
  intros H Hk. unfold getStateSnapshot, has, readStore.
  by rewrite (get_inherited _ _ H Hk).
Qed.

(** The snapshot is the sentinel only for a key that is neither an own
    property of the store nor a name of [Object.prototype]. *)
Lemma getStateSnapshot_sentinel (k : string) (s : State) :
  store s !! k ≠ Some NotExists →
  getStateSnapshot k s = NotExists →
  store s !! k = None ∧ inherited k = false.
Proof.
  intros Hfree. unfold getStateSnapshot, has, readStore, get.
  destruct (store s !! k) as [v|] eqn:Hs; simpl.
  - intros ->. by destruct Hfree.
  - destruct (inherited k) eqn:Hk; simpl; [| by auto].
    intros H. by apply prototypeValue_not_sentinel in H.
Qed.

(** *** Notification *)

Lemma forEach_invoke (ls : list Listener) (s : State) :
  forEach ls invoke s = Return tt (logCalls ls s).
Proof.
  revert s. induction ls as [| l ls IH]; intros s; simpl.
  - unfold ret, logCalls. destruct s; simpl. by rewrite app_nil_r.
  - unfold bind, invoke, modify. rewrite IH. f_equal.
    unfold logCalls, logCall; simpl. by rewrite <- app_assoc.
Qed.

Lemma logCalls_nil (s : State) : logCalls [] s = s.
Proof. unfold logCalls. destruct s; simpl. by rewrite app_nil_r. Qed.

Lemma notifyState_entry (k : string) (ls : list Listener) (s : State) :
  listeners s !! k = Some ls → notifyState k s = Return tt (logCalls ls s).
Proof.
  intros H. unfold notifyState, bind, gets.
  rewrite (get_own _ _ _ H). apply forEach_invoke.
Qed.

Lemma notifyState_ordinary (k : string) (s : State) :
  inherited k = false →
  notifyState k s = Return tt (logCalls (registered k s) s).
Proof.
  intros Hk. unfold registered.
  destruct (listeners s !! k) as [ls|] eqn:H; simpl.
  - by apply notifyState_entry.
  - unfold notifyState, bind, gets. rewrite (get_missing _ _ H Hk).
    apply forEach_invoke.
Qed.

Lemma notifyState_inherited (k : string) (s : State) :
  listeners s !! k = None → inherited k = true →
  notifyState k s = Throw TypeError s.
Proof.
  intros H Hk. unfold notifyState, bind, gets.
  by rewrite (get_inherited _ _ H Hk).
Qed.

(** *** The setter *)

Lemma assignStore_ordinary (k : string) (v : Value) (s : State) :
  inherited k = false →
  assignStore k v s = Return tt (setStore (<[k:=v]> (store s)) s).
Proof. intros Hk. unfold assignStore. by rewrite (set_ordinary _ _ _ _ Hk). Qed.

(** On a key that is not a name of [Object.prototype], a value that is not
    a function is stored and the listeners of the key run, in the order of
    their registration. *)
Lemma setStateBuilder_value (k : string) (v : Value) (s : State) :
  inherited k = false → isFunction v = false →
  setStateBuilder call k v s
  = Return tt (logCalls (registered k s) (setStore (<[k:=v]> (store s)) s)).
Proof.
  intros Hk Hv. unfold setStateBuilder. rewrite Hv. unfold bind at 1.
  rewrite (assignStore_ordinary _ _ _ Hk).
  by rewrite (notifyState_ordinary _ _ Hk).
Qed.


(** An updater that throws: the exception reaches the caller of the setter
    before anything is assigned or notified. *)
Lemma setStateBuilder_raises (k : string) (f : Addr) (e : Value) (s : State) :
  call f [readStore k s] = Raised e →
  setStateBuilder call k (VFunction f) s = Throw (Thrown e) s.
Proof.
  intros Hf. unfold setStateBuilder; simpl.
  unfold bind, gets, callFunction. by rewrite Hf.
Qed.


(** On a name of [Object.prototype] other than [__proto__], the value is
    stored and the notification throws, as no listener entry can exist. *)
Lemma setStateBuilder_value_inherited (k : string) (v : Value) (s : State) :
  inherited k = true → k ≠ "__proto__" → isFunction v = false →
  listeners s !! k = None →
  setStateBuilder call k v s
  = Throw TypeError (setStore (<[k:=v]> (store s)) s).
Proof.
  intros Hk Hne Hv Hl. unfold setStateBuilder. rewrite Hv. unfold bind.
  assert (assignStore k v s = Return tt (setStore (<[k:=v]> (store s)) s))
    as ->.
  { unfold assignStore, set. destruct (store s !! k); [done |].
    by rewrite (proj2 (String.eqb_neq k "__proto__") Hne). }
  by rewrite notifyState_inherited.
Qed.

(** *** Deleting *)

Lemma deleteState_eq (k : string) (s : State) :
  deleteState k s
  = Return tt (setListeners (delete k (listeners s))
                            (setStore (delete k (store s)) s)).
Proof. reflexivity. Qed.


(** After a delete, the snapshot of a key that is not a name of
    [Object.prototype] is the sentinel, its listeners are gone, and the other
    keys keep their value and their listeners. *)
Lemma deleteState_ordinary (k : string) (s : State) :
  inherited k = false →
  ∃ s', deleteState k s = Return tt s'
        ∧ getStateSnapshot k s' = NotExists
        ∧ store s' !! k = None
        ∧ listeners s' !! k = None
        ∧ calls s' = calls s
        ∧ storeListeners s' = storeListeners s
        ∧ ∀ k', k' ≠ k →
            store s' !! k' = store s !! k' ∧ listeners s' !! k' = listeners s !! k'.
Proof.
  intros Hk. eexists. split; [apply deleteState_eq |].
  split; [| split; [| split; [| split; [| split]]]]; simpl; try done.
  - apply getStateSnapshot_fresh; [| done]. simpl. apply lookup_delete_eq.
  - apply lookup_delete_eq.
  - apply lookup_delete_eq.
  - intros k' Hne. by rewrite !lookup_delete_ne.
Qed.

(** *** Subscribing *)

Lemma subscribeState_ordinary (k : string) (l : Listener) (s : State) :
  inherited k = false →
  subscribeState k l s
  = Return tt (setListeners (<[k := registered k s ++ [l]]> (listeners s)) s).
Proof.
  intros Hk. unfold subscribeState, registered, bind, gets, has.
  destruct (listeners s !! k) as [ls|] eqn:H.
  - rewrite (get_own _ _ _ H); simpl. unfold ret.
    by rewrite (get_own _ _ _ H).
  - rewrite (get_missing _ _ H Hk); simpl.
    unfold assignListeners. rewrite (set_ordinary _ _ _ _ Hk); simpl.
    rewrite (get_own k (<[k:=[]]> (listeners s)) []) by apply lookup_insert_eq.
    unfold modify, setListeners; simpl. by rewrite insert_insert_eq.
Qed.

Lemma subscribeState_entry (k : string) (l : Listener) (ls : list Listener)
    (s : State) :
  listeners s !! k = Some ls →
  subscribeState k l s
  = Return tt (setListeners (<[k := ls ++ [l]]> (listeners s)) s).
Proof.
  intros H. unfold subscribeState, bind, gets, has.
  rewrite (get_own _ _ _ H); simpl. unfold ret. by rewrite (get_own _ _ _ H).
Qed.

Lemma subscribeState_inherited (k : string) (l : Listener) (s : State) :
  listeners s !! k = None → inherited k = true →
  subscribeState k l s = Throw TypeError s.
Proof.
  intros H Hk. unfold subscribeState, bind, gets, has.
  rewrite (get_inherited _ _ H Hk); simpl. unfold ret.
  by rewrite (get_inherited _ _ H Hk).
Qed.

(** A subscription that returns leaves an entry for the key that ends with
    the new listener. *)
Lemma subscribeState_returns (k : string) (l : Listener) (s s1 : State) :
  subscribeState k l s = Return tt s1 →
  s1 = setListeners (<[k := registered k s ++ [l]]> (listeners s)) s.
Proof.
  intros H. destruct (listeners s !! k) as [ls|] eqn:Hl.
  - rewrite (subscribeState_entry _ _ _ _ Hl) in H.
    unfold registered. rewrite Hl; simpl. congruence.
  - destruct (inherited k) eqn:Hk.
    + by rewrite (subscribeState_inherited _ _ _ Hl Hk) in H.
    + rewrite (subscribeState_ordinary _ _ _ Hk) in H. congruence.
Qed.

Lemma unsubscribeState_entry (k : string) (l : Listener) (ls : list Listener)
    (s : State) :
  listeners s !! k = Some ls →
  unsubscribeState k l s
  = Return tt (setListeners (<[k := filter (λ x, x ≠ l) ls]> (listeners s)) s).
Proof.
  intros H. unfold unsubscribeState, bind, gets.
  rewrite (get_own _ _ _ H). unfold assignListeners.
  by rewrite (set_own _ _ _ _ _ H).
Qed.

(** Without an entry for the key, as after [deleteState], the closure
    throws. *)
Lemma unsubscribeState_no_entry (k : string) (l : Listener) (s : State) :
  listeners s !! k = None → unsubscribeState k l s = Throw TypeError s.
Proof.
  intros H. unfold unsubscribeState, bind, gets, get. rewrite H.
  by destruct (inherited k).
Qed.

Lemma filter_idempotent (l : Listener) (ls : list Listener) :
  filter (λ x, x ≠ l) (filter (λ x, x ≠ l) ls) = filter (λ x, x ≠ l) ls.
Proof.
  induction ls as [| x ls IH]; [done |].
  rewrite (filter_cons _ x ls). destruct (decide (x ≠ l)) as [Hx|Hx]; [| done].
  rewrite filter_cons. destruct (decide (x ≠ l)); [| done]. by rewrite IH.
Qed.

(** *** The keyed binding *)

Lemma useState_unfold (cell : option Memo) (k : string) (d : Value) (s : State) :
  useState call cell k d s
  = useMemo cell (afterSnapshot call k d (getStateSnapshot k s))
            (mkDeps (getStateSnapshot k s) d k) s.
Proof. reflexivity. Qed.

Lemma useMemo_hit (cell : option Memo) (factory : M Value) (deps : Deps)
    (s : State) :
  recomputes cell deps = false →
  ∃ m, cell = Some m ∧ memoDeps m = deps
       ∧ useMemo cell factory deps s = Return (memoValue m, cell) s.
Proof.
  unfold recomputes, useMemo. destruct cell as [m|]; [| done].
  intros H. exists m. destruct (decide (memoDeps m = deps)) as [Heq|Hne].
  - done.
  - by rewrite bool_decide_eq_false_2 in H.
Qed.

Lemma useMemo_miss (cell : option Memo) (factory : M Value) (deps : Deps)
    (s : State) :
  recomputes cell deps = true →
  useMemo cell factory deps s
  = (v <- factory ;; ret (v, Some (mkMemo deps v))) s.
Proof.
  unfold recomputes, useMemo. destruct cell as [m|]; [| done].
  intros H. destruct (decide (memoDeps m = deps)) as [Heq|Hne]; [| done].
  by rewrite bool_decide_eq_true_2 in H.
Qed.

Lemma callFunction_finalDefault (a : Addr) (s : State) :
  callFunction call (VFunction a) [] s
  = match finalDefault call (VFunction a) with
    | Returned v => Return v s
    | Raised e => Throw (Thrown e) s
    end.
Proof. simpl. by destruct (call a []). Qed.

(** The memoised function on the sentinel with a default that yields [v]:
    [v] is stored, the listeners of the key run, [v] is the result. *)
Lemma afterSnapshot_default (k : string) (d v : Value) (s : State) :
  inherited k = false → d ≠ VUndefined → finalDefault call d = Returned v →
  afterSnapshot call k d NotExists s
  = Return v (logCalls (registered k s) (setStore (<[k:=v]> (store s)) s)).
Proof.
  intros Hk Hd Hv. unfold afterSnapshot.
  rewrite decide_True by done.
  assert ((if isFunction d then callFunction call d [] else ret d) s
          = Return v s) as Hfirst.
  { destruct d; simpl in *; try (unfold ret; congruence).
    by rewrite Hv. }
  unfold bind at 1. rewrite Hfirst.
  unfold bind at 1. rewrite (assignStore_ordinary _ _ _ Hk).
  unfold bind. by rewrite (notifyState_ordinary _ _ Hk).
Qed.

Lemma afterSnapshot_default_raises (k : string) (d e : Value) (s : State) :
  d ≠ VUndefined → finalDefault call d = Raised e →
  afterSnapshot call k d NotExists s = Throw (Thrown e) s.
Proof.
  intros Hd He. unfold afterSnapshot. rewrite decide_True by done.
  destruct d; simpl in *; try congruence.
  unfold bind. by rewrite He.
Qed.

Lemma afterSnapshot_idle (k : string) (d snapshot : Value) (s : State) :
  ¬ (snapshot = NotExists ∧ d ≠ VUndefined) →
  afterSnapshot call k d snapshot s
  = Return (if decide (snapshot = NotExists) then VUndefined else snapshot) s.
Proof.
  intros H. unfold afterSnapshot. rewrite decide_False by done.
  by destruct (decide (snapshot = NotExists)).
Qed.

(** What the memoised function returns is a function of its dependencies. *)
Lemma afterSnapshot_result (k : string) (d snapshot v : Value) (s s' : State) :
  afterSnapshot call k d snapshot s = Return v s' →
  memoResult call (mkDeps snapshot d k) = Some v.
Proof.
  unfold afterSnapshot, memoResult; simpl.
  destruct (decide (snapshot = NotExists ∧ d ≠ VUndefined)) as [[-> Hd]|Hn].
  - unfold bind.
    destruct d; simpl; unfold ret, throw;
      try (destruct (assignStore k _ s) as [[] s1| |]; [| done | done];
           destruct (notifyState k s1) as [[] s2| |]; [| done | done];
           congruence).
    destruct (call a []) as [v0|e0]; [| done].
    destruct (assignStore k v0 s) as [[] s1| |]; [| done | done].
    destruct (notifyState k s1) as [[] s2| |]; [| done | done].
    congruence.
  - destruct (decide (snapshot = NotExists)); unfold ret; congruence.
Qed.

Lemma cellSound_None : cellSound call None.
Proof. by intros m. Qed.

(** Renders keep the memo cell sound. *)
Lemma useState_cellSound (cell cell' : option Memo) (k : string) (d v : Value)
    (s s' : State) :
  cellSound call cell →
  useState call cell k d s = Return (v, cell') s' →
  cellSound call cell'
  ∧ memoResult call (mkDeps (getStateSnapshot k s) d k) = Some v.
Proof.
  intros Hsound. rewrite useState_unfold.
  set (deps := mkDeps (getStateSnapshot k s) d k).
  destruct (recomputes cell deps) eqn:Hr.
  - rewrite (useMemo_miss _ _ _ _ Hr). unfold bind.
    destruct (afterSnapshot call k d (getStateSnapshot k s) s)
      as [v0 s0| |] eqn:Hf; [| done | done].
    unfold ret. intros [= <- <- <-].
    pose proof (afterSnapshot_result _ _ _ _ _ _ Hf) as Hres.
    split; [| done]. by intros m [= <-].
  - destruct (useMemo_hit cell (afterSnapshot call k d (getStateSnapshot k s))
                deps s Hr) as (m & -> & Hdeps & ->).
    intros [= <- <- <-]. split; [done |].
    rewrite <- Hdeps. by apply Hsound.
Qed.



(** *** The symbol of the module stays inside the module *)

Lemma sentinelFree_initial : sentinelFree initialState.
Proof. intros k. simpl. by rewrite lookup_empty. Qed.

Lemma assignStore_sentinelFree (k : string) (v : Value) (s s' : State) :
  callerValue v → sentinelFree s →
  stateAfter (assignStore k v s) = Some s' → sentinelFree s'.
Proof.
  intros Hv Hs. unfold assignStore, set.
  assert (sentinelFree (setStore (<[k:=v]> (store s)) s)) as Hins.
  { intros k'. simpl. rewrite lookup_insert. case_decide; [| apply Hs].
    intros [= Heq]. by apply Hv. }
  destruct (store s !! k).
  - simpl. by intros [= <-].
  - destruct (String.eqb k "__proto__").
    + destruct (replacesPrototype v); simpl; [done |].
      intros [= <-]. by destruct s.
    + simpl. by intros [= <-].
Qed.

Lemma notifyState_store (k : string) (s s' : State) :
  stateAfter (notifyState k s) = Some s' → store s' = store s.
Proof.
  unfold notifyState, bind, gets.
  destruct (get k (listeners s)); rewrite ?forEach_invoke; simpl;
    by intros [= <-].
Qed.

Lemma notifyState_sentinelFree (k : string) (s s' : State) :
  sentinelFree s → stateAfter (notifyState k s) = Some s' → sentinelFree s'.
Proof.
  intros Hs H k'. rewrite (notifyState_store _ _ _ H). apply Hs.
Qed.

Lemma assign_notify_sentinelFree (k : string) (v : Value) (s s' : State) :
  callerValue v → sentinelFree s →
  stateAfter ((assignStore k v ;; notifyState k) s) = Some s' →
  sentinelFree s'.
Proof.
  intros Hv Hs. unfold bind.
  destruct (assignStore k v s) as [[] s1|e s1|] eqn:Ha; simpl; [| | done].
  - apply notifyState_sentinelFree.
    apply (assignStore_sentinelFree k v s s1 Hv Hs). by rewrite Ha.
  - intros [= <-]. apply (assignStore_sentinelFree k v s s1 Hv Hs).
    by rewrite Ha.
Qed.

(** Setters called with caller values keep the symbol out of the store. *)
Lemma setStateBuilder_sentinelFree (k : string) (arg : Value) (s s' : State) :
  callerFunctions call → callerValue arg → sentinelFree s →
  stateAfter (setStateBuilder call k arg s) = Some s' → sentinelFree s'.
Proof.
  intros Hcall Harg Hs. unfold setStateBuilder.
  destruct arg; simpl;
    try (by apply assign_notify_sentinelFree).
  unfold bind at 1 2 3, gets.
  destruct (call a [readStore k s]) as [v|e] eqn:Hf; unfold ret, throw.
  - intros H. apply (assign_notify_sentinelFree k v s s'); [| done |].
    + by apply (Hcall a [readStore k s]).
    + unfold bind. exact H.
  - simpl. by intros [= <-].
Qed.

Lemma deleteState_sentinelFree (k : string) (s s' : State) :
  sentinelFree s → stateAfter (deleteState k s) = Some s' → sentinelFree s'.
Proof.
  intros Hs. rewrite deleteState_eq; simpl. intros [= <-] k'; simpl.
  rewrite lookup_delete. case_decide; [done | apply Hs].
Qed.

Lemma afterSnapshot_sentinelFree (k : string) (d snapshot : Value)
    (s s' : State) :
  callerFunctions call → callerValue d → sentinelFree s →
  stateAfter (afterSnapshot call k d snapshot s) = Some s' → sentinelFree s'.
Proof.
  intros Hcall Hd Hs. unfold afterSnapshot.
  destruct (decide (snapshot = NotExists ∧ d ≠ VUndefined)) as [_|_].
  - assert (∀ v, callerValue v →
              stateAfter ((assignStore k v ;; notifyState k ;; ret v) s)
              = Some s' → sentinelFree s') as Hstep.
    { intros v Hv. unfold bind.
      destruct (assignStore k v s) as [[] s1|e s1|] eqn:Ha; simpl; [| | done].
      - assert (sentinelFree s1) as Hs1
          by (apply (assignStore_sentinelFree k v s s1 Hv Hs); by rewrite Ha).
        destruct (notifyState k s1) as [[] s2|e s2|] eqn:Hn; simpl; [| | done].
        + intros [= <-]. apply (notifyState_sentinelFree k s1 s2 Hs1).
          by rewrite Hn.
        + intros [= <-]. apply (notifyState_sentinelFree k s1 s2 Hs1).
          by rewrite Hn.
      - intros [= <-]. apply (assignStore_sentinelFree k v s s1 Hv Hs).
        by rewrite Ha. }
    unfold bind at 1.
    destruct d; simpl; try (unfold ret at 1; by apply Hstep).
    destruct (call a []) as [v|e] eqn:Hf; unfold ret at 1, throw.
    + apply Hstep. by apply (Hcall a []).
    + simpl. by intros [= <-].
  - destruct (decide (snapshot = NotExists)); simpl; by intros [= <-].
Qed.

(** Renders with caller values keep the symbol out of the store. *)
Lemma useState_sentinelFree (cell : option Memo) (k : string) (d : Value)
    (s s' : State) :
  callerFunctions call → callerValue d → sentinelFree s →
  stateAfter (useState call cell k d s) = Some s' → sentinelFree s'.
Proof.
  intros Hcall Hd Hs. rewrite useState_unfold.
  set (snapshot := getStateSnapshot k s).
  destruct (recomputes cell (mkDeps snapshot d k)) eqn:Hr.
  - rewrite (useMemo_miss _ _ _ _ Hr). unfold bind.
    pose proof (afterSnapshot_sentinelFree k d snapshot s s' Hcall Hd Hs)
      as Hafter.
    destruct (afterSnapshot call k d snapshot s) as [v s1|e s1|];
      simpl in *; done.
  - destruct (useMemo_hit cell (afterSnapshot call k d snapshot)
                (mkDeps snapshot d k) s Hr) as (m & _ & _ & ->).
    simpl. by intros [= <-].
Qed.

(** *** The reduced variant *)

Lemma ignores_ret {A : Type} (a : A) : ignoresStoreListeners (ret a).
Proof. by intros ls s. Qed.

Lemma ignores_throw {A : Type} (e : Exn) : ignoresStoreListeners (@throw A e).
Proof. by intros ls s. Qed.

Lemma ignores_bind {A B : Type} (m : M A) (f : A → M B) :
  ignoresStoreListeners m → (∀ a, ignoresStoreListeners (f a)) →
  ignoresStoreListeners (bind m f).
Proof.
  intros Hm Hf ls s. unfold bind. rewrite Hm.
  destruct (m s) as [a s1|e s1|]; simpl; [apply Hf | done | done].
Qed.

Lemma ignores_gets {A : Type} (f : State → A) :
  (∀ ls s, f (setStoreListeners ls s) = f s) → ignoresStoreListeners (gets f).
Proof. intros Hf ls s. unfold gets. by rewrite Hf. Qed.

Lemma ignores_modify (f : State → State) :
  (∀ ls s, f (setStoreListeners ls s) = setStoreListeners ls (f s)) →
  ignoresStoreListeners (modify f).
Proof. intros Hf ls s. unfold modify. by rewrite Hf. Qed.

Lemma ignores_assignStore (k : string) (v : Value) :
  ignoresStoreListeners (assignStore k v).
Proof.
  intros ls s. unfold assignStore; simpl.
  by destruct (set replacesPrototype k v (store s)).
Qed.

Lemma ignores_assignListeners (k : string) (l : list Listener) :
  ignoresStoreListeners (assignListeners k l).
Proof.
  intros ls s. unfold assignListeners; simpl.
  by destruct (set (λ _, true) k l (listeners s)).
Qed.

Lemma ignores_forEach (l : list Listener) :
  ignoresStoreListeners (forEach l invoke).
Proof.
  induction l as [| x l IH]; simpl.
  - apply ignores_ret.
  - apply ignores_bind; [| done]. by apply ignores_modify.
Qed.

Lemma ignores_notifyState (k : string) : ignoresStoreListeners (notifyState k).
Proof.
  apply ignores_bind; [by apply ignores_gets |].
  intros [l| |]; [apply ignores_forEach | apply ignores_throw
                 | apply (ignores_forEach [])].
Qed.

Lemma ignores_callFunction (f : Value) (args : list Value) :
  ignoresStoreListeners (callFunction call f args).
Proof.
  destruct f; simpl; try apply ignores_throw.
  destruct (call a args); [apply ignores_ret | apply ignores_throw].
Qed.

Create HintDb ignores.

#[local] Hint Resolve ignores_ret ignores_throw ignores_assignStore
  ignores_assignListeners ignores_forEach ignores_notifyState
  ignores_callFunction : ignores.

(** The operations that the two variants share do not depend on the
    whole-store listeners and leave them as they are: they behave on the
    reduced store as on the full one. *)
Lemma ignores_subscribeState (k : string) (l : Listener) :
  ignoresStoreListeners (subscribeState k l).
Proof.
  apply ignores_bind; [by apply ignores_gets |]. intros present.
  apply ignores_bind; [destruct present; simpl; auto with ignores |].
  intros _. apply ignores_bind; [by apply ignores_gets |].
  intros [x| |]; auto with ignores. by apply ignores_modify.
Qed.

Lemma ignores_unsubscribeState (k : string) (l : Listener) :
  ignoresStoreListeners (unsubscribeState k l).
Proof.
  apply ignores_bind; [by apply ignores_gets |].
  intros [x| |]; auto with ignores.
Qed.

Lemma ignores_setStateBuilder (k : string) (arg : Value) :
  ignoresStoreListeners (setStateBuilder call k arg).
Proof.
  apply ignores_bind; [| auto with ignores].
  destruct (isFunction arg); [| auto with ignores].
  apply ignores_bind; [by apply ignores_gets |]. intros prev.
  apply ignores_bind; auto with ignores.
Qed.

Lemma ignores_afterSnapshot (k : string) (d snapshot : Value) :
  ignoresStoreListeners (afterSnapshot call k d snapshot).
Proof.
  unfold afterSnapshot.
  destruct (decide (snapshot = NotExists ∧ d ≠ VUndefined)).
  - apply ignores_bind; [destruct (isFunction d); auto with ignores |].
    intros v. apply ignores_bind; [auto with ignores |]. intros _.
    apply ignores_bind; auto with ignores.
  - destruct (decide (snapshot = NotExists)); auto with ignores.
Qed.

Lemma ignores_useState (cell : option Memo) (k : string) (d : Value) :
  ignoresStoreListeners (useState call cell k d).
Proof.
  apply ignores_bind; [by apply ignores_gets |]. intros snapshot.
  unfold useMemo. destruct cell as [m|].
  - case_decide; [auto with ignores |].
    apply ignores_bind; [apply ignores_afterSnapshot | auto with ignores].
  - apply ignores_bind; [apply ignores_afterSnapshot | auto with ignores].
Qed.

Lemma ignores_deleteState (k : string) : ignoresStoreListeners (deleteState k).
Proof.
  apply ignores_bind; [by apply ignores_modify |].
  intros _. by apply ignores_modify.
Qed.

(** The effect of the reduced [useState] changes nothing. *)
Lemma Reduced_useState_eq (cell : option Memo) (k : string) (d : Value)
    (s : State) :
  Reduced.useState call cell k d s = useState call cell k d s.
Proof.
  unfold Reduced.useState, useState, Reduced.useEffect, bind,
    useSyncExternalStore, gets, ret.
  by destruct (useMemo cell _ _ s) as [[v c] s1|e s1|].
Qed.

(** On a name of [Object.prototype] that was never written, the first
    render returns the inherited value, whatever the default. *)
Lemma useState_inherited (k : string) (d : Value) (s : State) :
  store s !! k = None → inherited k = true →
  useState call None k d s
  = Return (prototypeValue k,
            Some (mkMemo (mkDeps (prototypeValue k) d k) (prototypeValue k))) s.
Proof.
  intros Hs Hk. rewrite useState_unfold.
  rewrite (getStateSnapshot_inherited _ _ Hs Hk).
  rewrite useMemo_miss by done. unfold bind.
  rewrite afterSnapshot_idle
    by (intros [H _]; by apply prototypeValue_not_sentinel in H).
  rewrite decide_False by apply prototypeValue_not_sentinel. done.
Qed.

(** A render for which [materializes] holds stores the default and runs
    the listeners of the key. *)
Lemma useState_commits (cell : option Memo) (k : string) (d : Value)
    (s : State) :
  store s !! k ≠ Some NotExists →
  materializes call cell k d s = true →
  ∃ v, finalDefault call d = Returned v
       ∧ useState call cell k d s
         = Return (v, Some (mkMemo (mkDeps NotExists d k) v))
                  (logCalls (registered k s) (setStore (<[k:=v]> (store s)) s)).
Proof.
  intros Hfree. unfold materializes. intros H.
  apply andb_true_iff in H as [H Hfd]. apply andb_true_iff in H as [H Hd].
  apply andb_true_iff in H as [Hr Hsnap].
  apply bool_decide_eq_true_1 in Hd, Hsnap.
  destruct (finalDefault call d) as [v|e] eqn:Hv; [| done].
  exists v. split; [done |].
  destruct (getStateSnapshot_sentinel k s Hfree Hsnap) as [_ Hk].
  rewrite useState_unfold. rewrite Hsnap in Hr |- *.
  rewrite (useMemo_miss _ _ _ _ Hr). unfold bind.
  by rewrite (afterSnapshot_default k d v s Hk Hd Hv).
Qed.



(** ** The claims *)

(** C1.  On an empty store the key [toString] was never written, and its
    snapshot is the function inherited from [Object.prototype], not the
    sentinel. *)
Theorem getStateSnapshot_inherited_key :
  store initialState !! "toString" = None
  ∧ getStateSnapshot "toString" initialState
    = VFunction (Intrinsic "Object.prototype.toString")
  ∧ getStateSnapshot "toString" initialState ≠ NotExists.
Proof. split; [| split]; vm_compute; done. Qed.


(** C3.  A listener of the whole store, registered with [subscribeStore],
    does not run when a setter is called: only the listener of the key is
    in the log. *)
Theorem setStateBuilder_skips_storeListeners :
  (subscribeStore 7 ;; subscribeState "a" 8 ;;
   setStateBuilder call "a" (VNumber 1)) initialState
  = Return tt {| store := {["a" := VNumber 1]};
                 listeners := {["a" := [8]]};
                 storeListeners := [7];
                 calls := [8] |}.
Proof. vm_compute. reflexivity. Qed.

(** C4.  The setter of the key [__proto__] called with the number 5 stores
    nothing: the store has no entry for the key afterwards, the key still
    reads as [Object.prototype], and the notification throws a
    [TypeError]. *)
Theorem setStateBuilder_proto_key :
  setStateBuilder call "__proto__" (VNumber 5) initialState
  = Throw TypeError initialState
  ∧ store initialState !! "__proto__" = None
  ∧ readStore "__proto__" initialState = VObject (Intrinsic "Object.prototype").
Proof. split; [| split]; vm_compute; reflexivity. Qed.

(** C5.  When the updater passed to the setter of a key throws, the setter
    throws the same exception and leaves the whole state as it was: the
    store (the value of the key, or its absence), the listeners, and the log
    of listener calls, so no listener of any key ran. *)
Theorem setStateBuilder_updater_throws (k : string) (f : Addr) (e : Value)
    (s : State) :
  call f [readStore k s] = Raised e →
  setStateBuilder call k (VFunction f) s = Throw (Thrown e) s.
Proof. apply setStateBuilder_raises. Qed.

(** C6.  On an empty store, [useState("toString")] without a default returns
    the function inherited from [Object.prototype], not [undefined]. *)
Theorem useState_no_default_inherited_key :
  store initialState !! "toString" = None
  ∧ useState call None "toString" VUndefined initialState
    = Return (VFunction (Intrinsic "Object.prototype.toString"),
              Some (mkMemo
                      (mkDeps (VFunction (Intrinsic "Object.prototype.toString"))
                              VUndefined "toString")
                      (VFunction (Intrinsic "Object.prototype.toString"))))
             initialState.
Proof. split; vm_compute; reflexivity. Qed.

(** C7.  The setter of the key [toString] leaves an entry in the store (and
    throws from the notification); after [deleteState("toString")] the entry
    is gone and the snapshot of the key is the function inherited from
    [Object.prototype], not the sentinel. *)
Theorem deleteState_inherited_key :
  setStateBuilder call "toString" (VNumber 1) initialState
  = Throw TypeError (setStore {["toString" := VNumber 1]} initialState)
  ∧ deleteState "toString" (setStore {["toString" := VNumber 1]} initialState)
    = Return tt initialState
  ∧ getStateSnapshot "toString" initialState
    = VFunction (Intrinsic "Object.prototype.toString").
Proof. split; [| split]; vm_compute; reflexivity. Qed.

(** X27.  A subscription that returns appends the listener to the entry of
    the key.  In every state that has an entry for the key (so not after
    [deleteState] of the key), the closure returned by the subscription
    replaces the entry by the same list without the occurrences of that
    listener, the other entries in their order, and touches nothing else;
    called again at once, it returns and changes nothing. *)
Theorem unsubscribeState_symmetry (k : string) (l : Listener) (s s1 : State) :
  subscribeState k l s = Return tt s1 →
  listeners s1 !! k = Some (registered k s ++ [l])
  ∧ ∀ s2 ls,
      listeners s2 !! k = Some ls →
      let s3 := setListeners (<[k := filter (λ x, x ≠ l) ls]> (listeners s2)) s2 in
      unsubscribeState k l s2 = Return tt s3
      ∧ unsubscribeState k l s3 = Return tt s3.
Proof.
  intros Hsub. split.
  - rewrite (subscribeState_returns _ _ _ _ Hsub); simpl.
    apply lookup_insert_eq.
  - intros s2 ls Hls s3. split; [by apply unsubscribeState_entry |].
    assert (listeners s3 !! k = Some (filter (λ x, x ≠ l) ls)) as H3
      by apply lookup_insert_eq.
    rewrite (unsubscribeState_entry _ _ _ _ H3). f_equal.
    unfold s3, setListeners; simpl.
    by rewrite insert_insert_eq, filter_idempotent.
Qed.

(** C9.  On an empty store, [useState("toString", producer)] neither calls
    the producer nor writes the key, and returns the function inherited from
    [Object.prototype]. *)
Theorem useState_producer_inherited_key (f : Addr) :
  store initialState !! "toString" = None
  ∧ useState call None "toString" (VFunction f) initialState
    = Return (VFunction (Intrinsic "Object.prototype.toString"),
              Some (mkMemo
                      (mkDeps (VFunction (Intrinsic "Object.prototype.toString"))
                              (VFunction f) "toString")
                      (VFunction (Intrinsic "Object.prototype.toString"))))
             initialState.
Proof. split; vm_compute; reflexivity. Qed.

(** C10.  On an empty store, the setter of the key [toString] calls an
    updater with the function inherited from [Object.prototype], not with
    [undefined]; it stores the result and then throws a [TypeError] from the
    notification. *)
Theorem setStateBuilder_updater_inherited_key (f : Addr) :
  store initialState !! "toString" = None
  ∧ setStateBuilder call "toString" (VFunction f) initialState
    = match call f [VFunction (Intrinsic "Object.prototype.toString")] with
      | Returned v =>
          Throw TypeError (setStore {["toString" := v]} initialState)
      | Raised e => Throw (Thrown e) initialState
      end.
Proof.
  split; [vm_compute; reflexivity |].
  unfold setStateBuilder; simpl. unfold bind at 1 2 3, gets, callFunction.
  change (readStore "toString" initialState)
    with (VFunction (Intrinsic "Object.prototype.toString")).
  destruct (call f [VFunction (Intrinsic "Object.prototype.toString")]) as [v|e];
    vm_compute; reflexivity.
Qed.

End Properties.

(** ** Concrete runs and instances *)

(** C2.  A component renders [useState("k", "d")] on an empty store, which
    stores the default; the key is deleted before the component renders
    again; the component renders again with the same default.  The snapshot
    is the sentinel and a default is supplied, yet the memo returns the value
    of the first render and nothing is written: the key stays absent. *)
Lemma useState_memo_skips_default :
  useState exampleCall None "k" (VString "d") initialState
  = Return (VString "d", mountedCell) mountedState
  ∧ deleteState "k" mountedState = Return tt initialState
  ∧ getStateSnapshot "k" initialState = NotExists
  ∧ VString "d" ≠ VUndefined
  ∧ useState exampleCall mountedCell "k" (VString "d") initialState
    = Return (VString "d", mountedCell) initialState
  ∧ store initialState !! "k" = None.
Proof. repeat split; try (vm_compute; reflexivity). done. Qed.

(** C8.  After [deleteState] of the key, the closure returned by
    [subscribeState] throws a [TypeError]: on its first call, and on its
    second call when the delete falls between the two calls. *)
Theorem unsubscribe_closure_throws_after_delete :
  (subscribeState "a" 1 ;; deleteState "a" ;; unsubscribeState "a" 1)
    initialState
  = Throw TypeError initialState
  ∧ (subscribeState "a" 1 ;; unsubscribeState "a" 1 ;; deleteState "a" ;;
     unsubscribeState "a" 1) initialState
    = Throw TypeError initialState.
Proof. split; vm_compute; reflexivity. Qed.


Lemma setStateBuilder_updater_throws_witness :
  exampleCall (Alloc 1) [readStore "a" initialState] = Raised (VString "boom")
  ∧ setStateBuilder exampleCall "a" (VFunction (Alloc 1)) initialState
    = Throw (Thrown (VString "boom")) initialState.
Proof.
  split; [reflexivity |].
  apply (setStateBuilder_updater_throws exampleCall "a" (Alloc 1)
           (VString "boom") initialState).
  reflexivity.
Defined.

Lemma unsubscribeState_symmetry_witness :
  subscribeState "a" 2 subscribedState = Return tt twoListenersState
  ∧ listeners twoListenersState !! "a"
    = Some (registered "a" subscribedState ++ [2])
  ∧ unsubscribeState "a" 2 twoListenersState
    = Return tt (setListeners
                   (<["a" := filter (λ x, x ≠ 2) [1; 2]]>
                      (listeners twoListenersState))
                   twoListenersState)
  ∧ unsubscribeState "a" 1 twoListenersState
    = Return tt (setListeners
                   (<["a" := filter (λ x, x ≠ 1) [1; 2]]>
                      (listeners twoListenersState))
                   twoListenersState).
Proof.
  assert (subscribeState "a" 2 subscribedState = Return tt twoListenersState)
    as Hsub2 by (vm_compute; reflexivity).
  assert (subscribeState "a" 1 initialState = Return tt subscribedState)
    as Hsub1 by (vm_compute; reflexivity).
  assert (listeners twoListenersState !! "a" = Some [1; 2]) as Hentry2
    by (vm_compute; reflexivity).
  split; [exact Hsub2 |].
  destruct (unsubscribeState_symmetry "a" 2 subscribedState twoListenersState
              Hsub2) as [Hentry Hunsub].
  split; [exact Hentry |].
  split; [exact (proj1 (Hunsub twoListenersState [1; 2] Hentry2)) |].
  exact (proj1 (proj2 (unsubscribeState_symmetry "a" 1 initialState
                         subscribedState Hsub1)
                  twoListenersState [1; 2] Hentry2)).
Defined.

(** ** The store at work *)

(** A key set to an empty value reads as that value, not as the sentinel. *)
Example snapshot_of_undefined :
  (setStateBuilder exampleCall "a" VUndefined ;;
   gets (getStateSnapshot "a")) initialState
  = Return VUndefined (setStore {["a" := VUndefined]} initialState).
Proof. vm_compute. reflexivity. Qed.

(** Three increments of a key initialised to 0 give 3. *)
Example three_increments :
  (setStateBuilder exampleCall "n" (VNumber 0) ;;
   setStateBuilder exampleCall "n" (VFunction (Alloc 3)) ;;
   setStateBuilder exampleCall "n" (VFunction (Alloc 3)) ;;
   setStateBuilder exampleCall "n" (VFunction (Alloc 3)) ;;
   gets (getStateSnapshot "n")) initialState
  = Return (VNumber 3) (setStore {["n" := VNumber 3]} initialState).
Proof. vm_compute. reflexivity. Qed.

(** The form value: the default 2 is stored by the first render, the
    subscribed listener runs when the setter stores 5, and the next render
    reads 5. *)
Example form_value :
  (first <- useState exampleCall None "formValue" (VNumber 2) ;;
   subscribeState "formValue" 1 ;;
   setStateBuilder exampleCall "formValue" (VNumber 5) ;;
   second <- useState exampleCall (snd first) "formValue" (VNumber 2) ;;
   ret (fst first, fst second)) initialState
  = Return (VNumber 2, VNumber 5)
           {| store := {["formValue" := VNumber 5]};
              listeners := {["formValue" := [1]]};
              storeListeners := [];
              calls := [1] |}.
Proof. vm_compute. reflexivity. Qed.

(** Two components bind the same fresh key with the same default in one
    tick: the first render stores it, the second reads it and writes
    nothing. *)
Example two_bindings_one_default :
  (first <- useState exampleCall None "k" (VString "d") ;;
   second <- useState exampleCall None "k" (VString "d") ;;
   ret (fst first, fst second)) initialState
  = Return (VString "d", VString "d") mountedState.
Proof. vm_compute. reflexivity. Qed.

(** A listener of one key does not run when another key is set. *)
Example other_key_is_silent :
  (subscribeState "a" 1 ;; setStateBuilder exampleCall "b" (VNumber 1) ;;
   gets calls) initialState
  = Return [] {| store := {["b" := VNumber 1]};
                 listeners := {["a" := [1]]};
                 storeListeners := [];
                 calls := [] |}.
Proof. vm_compute. reflexivity. Qed.

(** After [deleteState] the closure of an earlier subscription throws. *)
Example unsubscribe_after_delete :
  (subscribeState "a" 1 ;; deleteState "a" ;; unsubscribeState "a" 1)
    initialState
  = Throw TypeError initialState.
Proof. vm_compute. reflexivity. Qed.

(** ** Further properties of the operations *)

Section Coverage.

Variable call : Addr → list Value → CallResult.

(** *** What one operation can change *)

Lemma setStore_same (s : State) : setStore (store s) s = s.
Proof. by destruct s. Qed.

Lemma wroteKey_refl (k : string) (s : State) : wroteKey k s s.
Proof.
  exists (store s), []. rewrite setStore_same, logCalls_nil. auto.
Qed.

Lemma assignStore_cases (k : string) (v : Value) (s : State) :
  (assignStore k v s = Return tt (setStore (<[k:=v]> (store s)) s)
   ∧ (k ≠ "__proto__" ∨ is_Some (store s !! k)))
  ∨ assignStore k v s = Return tt s
  ∨ assignStore k v s = Unmodelled.
Proof.
  unfold assignStore, set. destruct (store s !! k) as [x|] eqn:Hs.
  - left. split; [done | right; by exists x].
  - destruct (String.eqb_spec k "__proto__") as [->|Hne].
    + destruct (replacesPrototype v); [by right; right |].
      right; left. by rewrite setStore_same.
    + left. split; [done | by left].
Qed.

Lemma notifyState_cases (k : string) (s : State) :
  notifyState k s = Return tt (logCalls (registered k s) s)
  ∨ notifyState k s = Throw TypeError s.
Proof.
  destruct (listeners s !! k) as [ls|] eqn:Hl.
  - left. rewrite (notifyState_entry _ _ _ Hl). unfold registered.
    by rewrite Hl.
  - destruct (inherited k) eqn:Hk.
    + right. by apply notifyState_inherited.
    + left. by apply notifyState_ordinary.
Qed.

Lemma notifyState_wroteKey (k : string) (o : gmap string Value) (s s' : State) :
  (o = store s
   ∨ ∃ v, o = <[k:=v]> (store s) ∧ (k ≠ "__proto__" ∨ is_Some (store s !! k))) →
  stateAfter (notifyState k (setStore o s)) = Some s' → wroteKey k s s'.
Proof.
  intros Ho. destruct (notifyState_cases k (setStore o s)) as [-> | ->]; simpl;
    intros [= <-].
  - exists o, (registered k s). auto.
  - exists o, []. rewrite logCalls_nil. auto.
Qed.

Lemma assign_notify_wroteKey (k : string) (v : Value) (s s' : State) :
  stateAfter ((assignStore k v ;; notifyState k) s) = Some s' →
  wroteKey k s s'.
Proof.
  unfold bind.
  destruct (assignStore_cases k v s) as [[-> Hk] | [-> | ->]]; [| | done].
  - apply notifyState_wroteKey. right. by exists v.
  - rewrite <- (setStore_same s) at 1. apply notifyState_wroteKey. by left.
Qed.

Lemma setStateBuilder_wroteKey (k : string) (arg : Value) (s s' : State) :
  stateAfter (setStateBuilder call k arg s) = Some s' → wroteKey k s s'.
Proof.
  unfold setStateBuilder.
  destruct arg; simpl; try apply assign_notify_wroteKey.
  unfold bind at 1 2 3, gets, callFunction.
  destruct (call a [readStore k s]) as [v|e]; unfold ret, throw.
  - apply (assign_notify_wroteKey k v s s').
  - simpl. intros [= <-]. apply wroteKey_refl.
Qed.

Lemma afterSnapshot_wroteKey (k : string) (d snapshot : Value) (s s' : State) :
  stateAfter (afterSnapshot call k d snapshot s) = Some s' → wroteKey k s s'.
Proof.
  unfold afterSnapshot.
  destruct (decide (snapshot = NotExists ∧ d ≠ VUndefined)) as [_|_].
  - assert (∀ v, stateAfter ((assignStore k v ;; notifyState k ;; ret v) s)
                 = Some s' → wroteKey k s s') as Hstep.
    { intros v H. apply (assign_notify_wroteKey k v). revert H. unfold bind.
      destruct (assignStore k v s) as [[] s1|e s1|]; [| done | done].
      by destruct (notifyState k s1) as [[] s2|e s2|]. }
    unfold bind at 1.
    destruct d; simpl; try (unfold ret at 1; by apply Hstep).
    destruct (call a []) as [v|e]; unfold ret at 1, throw.
    + apply Hstep.
    + simpl. intros [= <-]. apply wroteKey_refl.
  - destruct (decide (snapshot = NotExists)); simpl; intros [= <-];
      apply wroteKey_refl.
Qed.

Lemma useState_wroteKey (cell : option Memo) (k : string) (d : Value)
    (s s' : State) :
  stateAfter (useState call cell k d s) = Some s' → wroteKey k s s'.
Proof.
  rewrite useState_unfold. set (snapshot := getStateSnapshot k s).
  destruct (recomputes cell (mkDeps snapshot d k)) eqn:Hr.
  - rewrite (useMemo_miss _ _ _ _ Hr). unfold bind.
    pose proof (afterSnapshot_wroteKey k d snapshot s s') as Hafter.
    destruct (afterSnapshot call k d snapshot s) as [v s1|e s1|];
      simpl in *; done.
  - destruct (useMemo_hit cell (afterSnapshot call k d snapshot)
                (mkDeps snapshot d k) s Hr) as (m & _ & _ & ->).
    simpl. intros [= <-]. apply wroteKey_refl.
Qed.

Lemma wroteKey_listeners (k : string) (s s' : State) :
  wroteKey k s s' →
  listeners s' = listeners s ∧ storeListeners s' = storeListeners s.
Proof. by intros (o & extra & -> & _ & _). Qed.

Lemma wroteKey_other (k k' : string) (s s' : State) :
  wroteKey k s s' → k' ≠ k → store s' !! k' = store s !! k'.
Proof.
  intros (o & extra & -> & [-> | (v & -> & _)] & _) Hne; simpl; [done |].
  by rewrite lookup_insert_ne.
Qed.

Lemma wroteKey_proto (k : string) (s s' : State) :
  wroteKey k s s' → store s !! "__proto__" = None →
  store s' !! "__proto__" = None.
Proof.
  intros (o & extra & -> & [-> | (v & -> & Hk)] & _) Hp; simpl; [done |].
  destruct (decide (k = "__proto__")) as [->|Hne].
  - destruct Hk as [Hk | [x Hx]]; [done | congruence].
  - by rewrite lookup_insert_ne.
Qed.

Lemma wroteKey_calls (k : string) (s s' : State) :
  wroteKey k s s' →
  ∃ extra, calls s' = calls s ++ extra ∧ (extra = [] ∨ extra = registered k s).
Proof. intros (o & extra & -> & _ & He). by exists extra. Qed.

(** *** Reading and writing one key *)

Lemma getStateSnapshot_lookup (k : string) (s s' : State) :
  store s' !! k = store s !! k → getStateSnapshot k s' = getStateSnapshot k s.
Proof.
  intros H. unfold getStateSnapshot, has, readStore, get. by rewrite H.
Qed.

Lemma assignStore_not_proto (k : string) (v : Value) (s : State) :
  k ≠ "__proto__" →
  assignStore k v s = Return tt (setStore (<[k:=v]> (store s)) s).
Proof.
  intros Hne. unfold assignStore, set. destruct (store s !! k); [done |].
  by rewrite (proj2 (String.eqb_neq k "__proto__") Hne).
Qed.

Lemma setStateBuilder_newValue (k : string) (arg v : Value) (s : State) :
  newValue call k arg s = Returned v →
  setStateBuilder call k arg s = (assignStore k v ;; notifyState k) s.
Proof.
  unfold newValue, setStateBuilder. intros H.
  destruct arg; simpl; try (injection H as <-; done).
  unfold bind at 1 2 3, gets, callFunction. by rewrite H.
Qed.

Lemma setStateBuilder_ordinary (k : string) (arg v : Value) (s : State) :
  inherited k = false → newValue call k arg s = Returned v →
  setStateBuilder call k arg s
  = Return tt (logCalls (registered k s) (setStore (<[k:=v]> (store s)) s)).
Proof.
  intros Hk Hv. rewrite (setStateBuilder_newValue _ _ _ _ Hv). unfold bind.
  rewrite (assignStore_ordinary _ _ _ Hk).
  by rewrite (notifyState_ordinary _ _ Hk).
Qed.


(** X2.  Whatever the key except [__proto__], once the setter has a value to
    store (its argument, or the result of the updater), the key holds that
    value afterwards and its snapshot is that value, also when the
    notification throws. *)
Theorem setStateBuilder_then_snapshot (k : string) (arg v : Value) (s : State) :
  k ≠ "__proto__" → newValue call k arg s = Returned v →
  ∃ s', stateAfter (setStateBuilder call k arg s) = Some s'
        ∧ store s' !! k = Some v
        ∧ getStateSnapshot k s' = v.
Proof.
  intros Hne Hv. rewrite (setStateBuilder_newValue _ _ _ _ Hv). unfold bind.
  rewrite (assignStore_not_proto _ _ _ Hne).
  set (s1 := setStore (<[k:=v]> (store s)) s).
  assert (store s1 !! k = Some v) as H1 by apply lookup_insert_eq.
  destruct (notifyState_cases k s1) as [-> | ->]; simpl.
  - exists (logCalls (registered k s1) s1). split; [done |].
    split; [done |]. by apply getStateSnapshot_own.
  - exists s1. split; [done |]. split; [done |].
    by apply getStateSnapshot_own.
Qed.

(** X3.  On a key that is not a name of [Object.prototype], a setter that has
    a value to store returns; it replaces the value of the key, leaves the
    rest of the store and all listener lists as they are, and runs the
    listeners registered for the key, each once, in the order of their
    registration, and no other listener. *)
Theorem setStateBuilder_notifies_key (k : string) (arg v : Value) (s : State) :
  inherited k = false → newValue call k arg s = Returned v →
  setStateBuilder call k arg s
  = Return tt {| store := <[k:=v]> (store s);
                 listeners := listeners s;
                 storeListeners := storeListeners s;
                 calls := calls s ++ registered k s |}.
Proof. intros Hk Hv. by rewrite (setStateBuilder_ordinary _ _ _ _ Hk Hv). Qed.


Lemma stateAfter_notifyState (k : string) (s : State) :
  ∃ s', stateAfter (notifyState k s) = Some s'.
Proof. destruct (notifyState_cases k s) as [-> | ->]; by eexists. Qed.

Lemma setStateBuilder_modelled (k : string) (arg : Value) (s : State) :
  k ≠ "__proto__" → ∃ s', stateAfter (setStateBuilder call k arg s) = Some s'.
Proof.
  intros Hne. destruct (newValue call k arg s) as [v|e] eqn:Hv.
  - rewrite (setStateBuilder_newValue _ _ _ _ Hv). unfold bind.
    rewrite (assignStore_not_proto _ _ _ Hne). apply stateAfter_notifyState.
  - destruct arg; simpl in Hv; try done.
    rewrite (setStateBuilder_raises call k a e s Hv). by eexists.
Qed.

Lemma afterSnapshot_modelled (k : string) (d snapshot : Value) (s : State) :
  k ≠ "__proto__" →
  ∃ s', stateAfter (afterSnapshot call k d snapshot s) = Some s'.
Proof.
  intros Hne. unfold afterSnapshot.
  destruct (decide (snapshot = NotExists ∧ d ≠ VUndefined)) as [_|_].
  - assert (∀ v, ∃ s', stateAfter
                         ((assignStore k v ;; notifyState k ;; ret v) s)
                       = Some s') as Hstep.
    { intros v. unfold bind. rewrite (assignStore_not_proto _ _ _ Hne).
      destruct (notifyState_cases k (setStore (<[k:=v]> (store s)) s))
        as [-> | ->]; by eexists. }
    unfold bind at 1.
    destruct d; simpl; try (unfold ret at 1; by apply Hstep).
    destruct (call a []) as [v|e]; unfold ret at 1, throw;
      [apply Hstep | by eexists].
  - destruct (decide (snapshot = NotExists)); by eexists.
Qed.

Lemma useState_modelled (cell : option Memo) (k : string) (d : Value)
    (s : State) :
  k ≠ "__proto__" → ∃ s', stateAfter (useState call cell k d s) = Some s'.
Proof.
  intros Hne. rewrite useState_unfold. set (snapshot := getStateSnapshot k s).
  destruct (recomputes cell (mkDeps snapshot d k)) eqn:Hr.
  - rewrite (useMemo_miss _ _ _ _ Hr). unfold bind.
    destruct (afterSnapshot_modelled k d snapshot s Hne) as [s' Hs'].
    destruct (afterSnapshot call k d snapshot s) as [v s1|e s1|];
      simpl in *; [by eexists | by eexists | done].
  - destruct (useMemo_hit cell (afterSnapshot call k d snapshot)
                (mkDeps snapshot d k) s Hr) as (m & _ & _ & ->).
    by eexists.
Qed.

(** X5.  A setter or a render of a key other than [__proto__] ends, by
    returning or by throwing, in a state in which every other key has the
    entry and the snapshot it had, and all listener lists are as before. *)
Theorem other_keys_untouched (k k' : string) (arg d : Value)
    (cell : option Memo) (s : State) :
  k ≠ "__proto__" → k' ≠ k →
  (∃ s', stateAfter (setStateBuilder call k arg s) = Some s'
         ∧ store s' !! k' = store s !! k'
         ∧ getStateSnapshot k' s' = getStateSnapshot k' s
         ∧ listeners s' = listeners s)
  ∧ (∃ s', stateAfter (useState call cell k d s) = Some s'
           ∧ store s' !! k' = store s !! k'
           ∧ getStateSnapshot k' s' = getStateSnapshot k' s
           ∧ listeners s' = listeners s).
Proof.
  intros Hproto Hne.
  assert (∀ s', wroteKey k s s' →
            store s' !! k' = store s !! k'
            ∧ getStateSnapshot k' s' = getStateSnapshot k' s
            ∧ listeners s' = listeners s) as Hframe.
  { intros s' Hw. pose proof (wroteKey_other k k' s s' Hw Hne) as Hother.
    split; [done |]. split; [by apply getStateSnapshot_lookup |].
    by destruct (wroteKey_listeners k s s' Hw). }
  split.
  - destruct (setStateBuilder_modelled k arg s Hproto) as [s' Hs'].
    exists s'. split; [done |].
    apply Hframe. by apply (setStateBuilder_wroteKey k arg).
  - destruct (useState_modelled cell k d s Hproto) as [s' Hs'].
    exists s'. split; [done |].
    apply Hframe. by apply (useState_wroteKey cell k d).
Qed.

(** X6.  Two updaters passed to the setter one after the other compose: the
    second receives the result of the first, the key ends with the result of
    the second, and the listeners of the key ran after each call. *)
Theorem setStateBuilder_updaters_compose (k : string) (f g : Addr)
    (v1 v2 : Value) (s : State) :
  inherited k = false →
  call f [readStore k s] = Returned v1 → call g [v1] = Returned v2 →
  (setStateBuilder call k (VFunction f) ;;
   setStateBuilder call k (VFunction g)) s
  = Return tt {| store := <[k:=v2]> (store s);
                 listeners := listeners s;
                 storeListeners := storeListeners s;
                 calls := (calls s ++ registered k s) ++ registered k s |}.
Proof.
  intros Hk Hf Hg. unfold bind at 1.
  rewrite (setStateBuilder_ordinary k (VFunction f) v1 s Hk Hf).
  set (s1 := logCalls (registered k s) (setStore (<[k:=v1]> (store s)) s)).
  assert (readStore k s1 = v1) as Hr
    by (apply readStore_own; apply lookup_insert_eq).
  rewrite (setStateBuilder_ordinary k (VFunction g) v2 s1 Hk)
    by (simpl; by rewrite Hr).
  unfold logCalls, setStore, s1; simpl. by rewrite insert_insert_eq.
Qed.

(** *** Deleting a key *)

Lemma registered_deleted (k : string) (s : State) :
  registered k (setListeners (delete k (listeners s))
                             (setStore (delete k (store s)) s)) = [].
Proof. unfold registered; simpl. by rewrite lookup_delete_eq. Qed.


(** X8.  [deleteState] drops the listeners of the key without telling them:
    a value set afterwards under the key, when the key is not a name of
    [Object.prototype], is stored, and not one of the listeners registered
    before the delete is called. *)
Theorem deleteState_silences_listeners (k : string) (v : Value) (s : State) :
  inherited k = false → isFunction v = false →
  (deleteState k ;; setStateBuilder call k v) s
  = Return tt {| store := <[k:=v]> (store s);
                 listeners := delete k (listeners s);
                 storeListeners := storeListeners s;
                 calls := calls s |}.
Proof.
  intros Hk Hv. unfold bind at 1. rewrite deleteState_eq.
  rewrite (setStateBuilder_value call k v _ Hk Hv).
  rewrite registered_deleted, logCalls_nil.
  unfold setStore, setListeners; simpl. by rewrite insert_delete_eq.
Qed.

(** X9.  After [deleteState] of a key, the closure returned by an earlier
    subscription to that key throws a [TypeError], whatever the key and the
    listener, and changes nothing. *)
Theorem unsubscribeState_after_deleteState (k : string) (l : Listener)
    (s : State) :
  (deleteState k ;; unsubscribeState k l) s
  = Throw TypeError {| store := delete k (store s);
                       listeners := delete k (listeners s);
                       storeListeners := storeListeners s;
                       calls := calls s |}.
Proof.
  unfold bind at 1. rewrite deleteState_eq.
  apply unsubscribeState_no_entry. simpl. apply lookup_delete_eq.
Qed.

(** *** Subscriptions *)

Lemma filter_absent (l : Listener) (ls : list Listener) :
  l ∉ ls → filter (λ x, x ≠ l) ls = ls.
Proof.
  induction ls as [| x ls IH]; [done |]. intros Hl.
  apply not_elem_of_cons in Hl as [Hx Hls].
  rewrite filter_cons. rewrite decide_True by done. by rewrite IH.
Qed.

Lemma filter_snoc_same (l : Listener) (ls : list Listener) :
  filter (λ x, x ≠ l) (ls ++ [l]) = filter (λ x, x ≠ l) ls.
Proof.
  rewrite filter_app, filter_cons. rewrite decide_False by (intros H; done).
  by rewrite filter_nil, app_nil_r.
Qed.

Lemma subscribe_then_unsubscribe (k : string) (l : Listener) (s : State) :
  inherited k = false →
  (subscribeState k l ;; unsubscribeState k l) s
  = Return tt (setListeners
                 (<[k := filter (λ x, x ≠ l) (registered k s)]> (listeners s)) s).
Proof.
  intros Hk. unfold bind. rewrite (subscribeState_ordinary _ _ _ Hk).
  rewrite (unsubscribeState_entry k l (registered k s ++ [l]))
    by apply lookup_insert_eq.
  unfold setListeners; simpl. by rewrite insert_insert_eq, filter_snoc_same.
Qed.

(** X10.  Subscribing a listener that is not yet registered for a key (not a
    name of [Object.prototype]) and calling the returned closure gives back
    the listener list of the key as it was; a key that had no entry keeps an
    empty one.  Store, other keys and call log are untouched. *)
Theorem subscribe_unsubscribe_restores (k : string) (l : Listener) (s : State) :
  inherited k = false → l ∉ registered k s →
  (subscribeState k l ;; unsubscribeState k l) s
  = Return tt {| store := store s;
                 listeners := <[k := registered k s]> (listeners s);
                 storeListeners := storeListeners s;
                 calls := calls s |}.
Proof.
  intros Hk Hl. rewrite (subscribe_then_unsubscribe _ _ _ Hk).
  by rewrite (filter_absent _ _ Hl).
Qed.

(** X11.  A listener subscribed twice to a key (not a name of
    [Object.prototype]) is registered twice, and one call of either closure
    removes both registrations: afterwards the key has its earlier listeners
    except that one. *)
Theorem duplicate_subscription (k : string) (l : Listener) (s : State) :
  inherited k = false →
  (subscribeState k l ;; subscribeState k l) s
  = Return tt (setListeners (<[k := (registered k s ++ [l]) ++ [l]]> (listeners s)) s)
  ∧ (subscribeState k l ;; subscribeState k l ;; unsubscribeState k l) s
    = Return tt (setListeners
                   (<[k := filter (λ x, x ≠ l) (registered k s)]> (listeners s)) s).
Proof.
  intros Hk.
  set (s1 := setListeners (<[k := registered k s ++ [l]]> (listeners s)) s).
  assert (registered k s1 = registered k s ++ [l]) as Hr1
    by (unfold registered, s1; simpl; by rewrite lookup_insert_eq).
  assert (subscribeState k l s1
          = Return tt (setListeners
                         (<[k := (registered k s ++ [l]) ++ [l]]> (listeners s)) s))
    as H2.
  { rewrite (subscribeState_ordinary _ _ _ Hk), Hr1.
    unfold setListeners, s1; simpl. by rewrite insert_insert_eq. }
  split.
  - unfold bind. by rewrite (subscribeState_ordinary _ _ s Hk).
  - unfold bind. rewrite (subscribeState_ordinary _ _ s Hk). fold s1.
    rewrite H2.
    rewrite (unsubscribeState_entry k l ((registered k s ++ [l]) ++ [l]))
      by apply lookup_insert_eq.
    unfold setListeners; simpl.
    by rewrite insert_insert_eq, !filter_snoc_same.
Qed.

(** X12.  The whole-store subscription: calling the closure returned by
    [subscribeStore] right after it leaves the whole-store listeners without
    any registration of that listener, the others in their order, and
    restores the list when the listener was not registered before; nothing
    else changes. *)
Theorem subscribeStore_unsubscribe (l : Listener) (s : State) :
  (subscribeStore l ;; unsubscribeStore l) s
  = Return tt {| store := store s;
                 listeners := listeners s;
                 storeListeners := filter (λ x, x ≠ l) (storeListeners s);
                 calls := calls s |}
  ∧ (l ∉ storeListeners s →
     (subscribeStore l ;; unsubscribeStore l) s = Return tt s).
Proof.
  assert ((subscribeStore l ;; unsubscribeStore l) s
          = Return tt (setStoreListeners
                         (filter (λ x, x ≠ l) (storeListeners s)) s)) as H.
  { unfold bind, subscribeStore, unsubscribeStore, modify; simpl.
    unfold setStoreListeners; simpl. by rewrite filter_snoc_same. }
  split; [done |].
  intros Hl. rewrite H, (filter_absent _ _ Hl). by destruct s.
Qed.

(** *** Renders of the keyed binding *)

Lemma useState_present (cell : option Memo) (k : string) (d x : Value)
    (s : State) :
  store s !! k = Some x → x ≠ NotExists → cellSound call cell →
  ∃ cell', useState call cell k d s = Return (x, cell') s.
Proof.
  intros Hx Hne Hsound. rewrite useState_unfold.
  rewrite (getStateSnapshot_own _ _ _ Hx).
  destruct (recomputes cell (mkDeps x d k)) eqn:Hr.
  - rewrite (useMemo_miss _ _ _ _ Hr). unfold bind.
    rewrite afterSnapshot_idle by (by intros [H _]).
    rewrite decide_False by done. by eexists.
  - destruct (useMemo_hit cell (afterSnapshot call k d x) (mkDeps x d k) s Hr)
      as (m & -> & Hdeps & ->).
    pose proof (Hsound m eq_refl) as Hm. rewrite Hdeps in Hm.
    unfold memoResult in Hm. cbn [depSnapshot depDefaultValue] in Hm.
    rewrite decide_False in Hm by (by intros [H _]).
    rewrite decide_False in Hm by done. injection Hm as <-. by eexists.
Qed.

Lemma cellSound_materialized (k : string) (d v : Value) :
  d ≠ VUndefined → finalDefault call d = Returned v →
  cellSound call (Some (mkMemo (mkDeps NotExists d k) v)).
Proof.
  intros Hd Hv m [= <-]. unfold memoResult; simpl.
  rewrite decide_True by done. by rewrite Hv.
Qed.

(** X13.  State outlives the component: when a key holds a caller value, a
    render of any component bound to it, newly mounted or not, with any
    default, returns that value and changes nothing; this includes a stored
    [undefined], which is not replaced by the default. *)
Theorem useState_returns_stored_value (cell : option Memo) (k : string)
    (d x : Value) (s : State) :
  store s !! k = Some x → x ≠ NotExists → cellSound call cell →
  ∃ cell', useState call cell k d s = Return (x, cell') s
           ∧ cellSound call cell'.
Proof.
  intros Hx Hne Hsound.
  destruct (useState_present cell k d x s Hx Hne Hsound) as [cell' H].
  exists cell'. split; [done |].
  by destruct (useState_cellSound call cell cell' k d x s s Hsound H).
Qed.

(** X14.  The default is materialized once: after a render that stored the
    default [v], every later render of the key, by the same component or by a
    newly mounted one, with the same or any other default, returns [v] and
    writes nothing. *)
Theorem useState_default_once (cell : option Memo) (k : string) (d : Value)
    (s : State) :
  store s !! k ≠ Some NotExists → materializes call cell k d s = true →
  ∃ v c1 s1,
    useState call cell k d s = Return (v, c1) s1
    ∧ store s1 !! k = Some v
    ∧ (v ≠ NotExists →
       ∀ d2, (∃ c2, useState call c1 k d2 s1 = Return (v, c2) s1)
             ∧ (∃ c2, useState call None k d2 s1 = Return (v, c2) s1)).
Proof.
  intros Hfree Hm.
  destruct (useState_commits call cell k d s Hfree Hm) as (v & Hv & Hrun).
  eexists v, _, _. split; [exact Hrun |].
  assert (store (logCalls (registered k s) (setStore (<[k:=v]> (store s)) s))
            !! k = Some v) as Hk by apply lookup_insert_eq.
  split; [exact Hk |]. intros Hne d2.
  assert (d ≠ VUndefined) as Hd.
  { unfold materializes in Hm. apply andb_true_iff in Hm as [Hm _].
    apply andb_true_iff in Hm as [_ Hd]. by apply bool_decide_eq_true_1 in Hd. }
  split.
  - apply (useState_present _ k d2 v _ Hk Hne).
    by apply cellSound_materialized.
  - apply (useState_present None k d2 v _ Hk Hne). apply cellSound_None.
Qed.


(** X16.  A default producer that throws during a render of a key never
    written (not a name of [Object.prototype]): the render throws the same
    exception, the key stays absent and no listener runs. *)
Theorem useState_producer_throws (cell : option Memo) (k : string) (f : Addr)
    (e : Value) (s : State) :
  store s !! k = None → inherited k = false → cellSound call cell →
  call f [] = Raised e →
  useState call cell k (VFunction f) s = Throw (Thrown e) s.
Proof.
  intros Hs Hk Hsound Hf. rewrite useState_unfold.
  rewrite (getStateSnapshot_fresh _ _ Hs Hk).
  set (deps := mkDeps NotExists (VFunction f) k).
  destruct (recomputes cell deps) eqn:Hr.
  - rewrite (useMemo_miss _ _ _ _ Hr). unfold bind.
    by rewrite (afterSnapshot_default_raises call k (VFunction f) e s).
  - destruct (useMemo_hit cell (afterSnapshot call k (VFunction f) NotExists)
                deps s Hr) as (m & -> & Hdeps & _).
    pose proof (Hsound m eq_refl) as Hm. rewrite Hdeps in Hm.
    unfold memoResult, deps in Hm. cbn [depSnapshot depDefaultValue] in Hm.
    rewrite decide_True in Hm by done. simpl in Hm. by rewrite Hf in Hm.
Qed.




(** *** The symbol of the module and caller code *)

Lemma readStore_sentinelFree (k : string) (s : State) :
  sentinelFree s → readStore k s ≠ NotExists.
Proof.
  intros Hfree. unfold readStore, get.
  destruct (store s !! k) as [x|] eqn:Hx.
  - intros ->. by apply (Hfree k).
  - destruct (inherited k); [apply prototypeValue_not_sentinel | done].
Qed.

Lemma finalDefault_callerValue (d v : Value) :
  symbolFromArguments call → callerValue d →
  finalDefault call d = Returned v → v ≠ NotExists.
Proof.
  intros Hcall Hd. destruct d; simpl; try (intros [= <-]; done).
  intros Hf ->. apply Hcall in Hf. by apply elem_of_nil in Hf.
Qed.

Lemma memoResult_callerValue (k : string) (d snapshot v : Value) :
  symbolFromArguments call → callerValue d →
  memoResult call (mkDeps snapshot d k) = Some v → v ≠ NotExists.
Proof.
  intros Hcall Hd. unfold memoResult; simpl.
  destruct (decide (snapshot = NotExists ∧ d ≠ VUndefined)) as [_|_].
  - destruct (finalDefault call d) as [v0|e0] eqn:Hf; [| done].
    intros [= <-]. by apply (finalDefault_callerValue d v0).
  - destruct (decide (snapshot = NotExists)); intros [= <-]; done.
Qed.

Lemma newValue_callerValue (k : string) (arg v : Value) (s : State) :
  symbolFromArguments call → callerValue arg → sentinelFree s →
  newValue call k arg s = Returned v → v ≠ NotExists.
Proof.
  intros Hcall Harg Hfree. destruct arg; simpl; try (intros [= <-]; done).
  intros Hf ->. apply Hcall in Hf. apply list_elem_of_singleton in Hf.
  by apply (readStore_sentinelFree k s Hfree).
Qed.

Lemma setStateBuilder_keeps_symbol_out (k : string) (arg : Value)
    (s s' : State) :
  symbolFromArguments call → callerValue arg → sentinelFree s →
  stateAfter (setStateBuilder call k arg s) = Some s' → sentinelFree s'.
Proof.
  intros Hcall Harg Hfree. destruct (newValue call k arg s) as [v|e] eqn:Hv.
  - rewrite (setStateBuilder_newValue _ _ _ _ Hv).
    apply assign_notify_sentinelFree; [| done].
    by apply (newValue_callerValue k arg v s).
  - destruct arg; simpl in Hv; try done.
    rewrite (setStateBuilder_raises call k a e s Hv). simpl.
    by intros [= <-].
Qed.

Lemma afterSnapshot_keeps_symbol_out (k : string) (d snapshot : Value)
    (s s' : State) :
  symbolFromArguments call → callerValue d → sentinelFree s →
  stateAfter (afterSnapshot call k d snapshot s) = Some s' → sentinelFree s'.
Proof.
  intros Hcall Hd Hs. unfold afterSnapshot.
  destruct (decide (snapshot = NotExists ∧ d ≠ VUndefined)) as [_|_].
  - assert (∀ v, callerValue v →
              stateAfter ((assignStore k v ;; notifyState k ;; ret v) s)
              = Some s' → sentinelFree s') as Hstep.
    { intros v Hv H. apply (assign_notify_sentinelFree k v s s' Hv Hs).
      revert H. unfold bind.
      destruct (assignStore k v s) as [[] s1|e s1|]; [| done | done].
      by destruct (notifyState k s1) as [[] s2|e s2|]. }
    unfold bind at 1.
    destruct d; simpl; try (unfold ret at 1; by apply Hstep).
    destruct (call a []) as [v|e] eqn:Hf; unfold ret at 1, throw.
    + apply Hstep. by apply (finalDefault_callerValue (VFunction a) v).
    + simpl. by intros [= <-].
  - destruct (decide (snapshot = NotExists)); simpl; by intros [= <-].
Qed.

Lemma useState_keeps_symbol_out (cell : option Memo) (k : string) (d : Value)
    (s s' : State) :
  symbolFromArguments call → callerValue d → sentinelFree s →
  stateAfter (useState call cell k d s) = Some s' → sentinelFree s'.
Proof.
  intros Hcall Hd Hs. rewrite useState_unfold.
  set (snapshot := getStateSnapshot k s).
  destruct (recomputes cell (mkDeps snapshot d k)) eqn:Hr.
  - rewrite (useMemo_miss _ _ _ _ Hr). unfold bind.
    pose proof (afterSnapshot_keeps_symbol_out k d snapshot s s' Hcall Hd Hs)
      as Hafter.
    destruct (afterSnapshot call k d snapshot s) as [v s1|e s1|];
      simpl in *; done.
  - destruct (useMemo_hit cell (afterSnapshot call k d snapshot)
                (mkDeps snapshot d k) s Hr) as (m & _ & _ & ->).
    simpl. by intros [= <-].
Qed.

(** X20.  The symbol of the module never reaches caller code.  When caller
    functions return the symbol only if it is among their arguments (they
    may return their argument), and the store does not hold the symbol: no
    key reads as the symbol, so no updater receives it; a render with a
    caller default does not return it; and after a setter called with a
    caller value or a render with a caller default the store still does not
    hold it. *)
Theorem sentinel_never_escapes (s : State) :
  symbolFromArguments call → sentinelFree s →
  (∀ k, readStore k s ≠ NotExists)
  ∧ (∀ cell k d v c s',
       callerValue d → cellSound call cell →
       useState call cell k d s = Return (v, c) s' →
       v ≠ NotExists ∧ sentinelFree s')
  ∧ (∀ k arg s',
       callerValue arg →
       stateAfter (setStateBuilder call k arg s) = Some s' → sentinelFree s').
Proof.
  intros Hcall Hfree. split; [| split].
  - intros k. by apply readStore_sentinelFree.
  - intros cell k d v c s' Hd Hsound Hrun. split.
    + destruct (useState_cellSound call cell c k d v s s' Hsound Hrun)
        as [_ Hm].
      exact (memoResult_callerValue k d (getStateSnapshot k s) v Hcall Hd Hm).
    + apply (useState_keeps_symbol_out cell k d s s' Hcall Hd Hfree).
      by rewrite Hrun.
  - intros k arg s' Harg. by apply setStateBuilder_keeps_symbol_out.
Qed.

(** *** What operations never do *)

Lemma subscribeState_after (k : string) (l : Listener) (s s' : State) :
  stateAfter (subscribeState k l s) = Some s' →
  s' = s
  ∨ (s' = setListeners (<[k := registered k s ++ [l]]> (listeners s)) s
     ∧ (inherited k = false ∨ is_Some (listeners s !! k))).
Proof.
  destruct (listeners s !! k) as [ls|] eqn:Hl.
  - rewrite (subscribeState_entry _ _ _ _ Hl); simpl. intros [= <-]. right.
    unfold registered. rewrite Hl; simpl. split; [done | right; by exists ls].
  - destruct (inherited k) eqn:Hk.
    + rewrite (subscribeState_inherited _ _ _ Hl Hk); simpl. intros [= <-].
      by left.
    + rewrite (subscribeState_ordinary _ _ _ Hk); simpl. intros [= <-].
      right. split; [done | by left].
Qed.

Lemma unsubscribeState_after (k : string) (l : Listener) (s s' : State) :
  stateAfter (unsubscribeState k l s) = Some s' →
  s' = s
  ∨ ∃ ls, listeners s !! k = Some ls
          ∧ s' = setListeners (<[k := filter (λ x, x ≠ l) ls]> (listeners s)) s.
Proof.
  destruct (listeners s !! k) as [ls|] eqn:Hl.
  - rewrite (unsubscribeState_entry _ _ _ _ Hl); simpl. intros [= <-].
    right. by exists ls.
  - rewrite (unsubscribeState_no_entry _ _ _ Hl); simpl. intros [= <-].
    by left.
Qed.

(** X21.  Whatever the operation, the listeners it calls are none, or the
    listeners registered for one key, each once and in order; the whole-store
    listeners are never called, and no operation changes them except their
    own subscription and its closure. *)
Theorem operations_call_key_listeners_only (op : Operation) (s s' : State) :
  perform call op s = Some s' →
  (∃ extra, calls s' = calls s ++ extra
            ∧ (extra = [] ∨ ∃ k, extra = registered k s))
  ∧ (storeListeners s' = storeListeners s
     ∨ ∃ l, op = OpSubscribeStore l ∨ op = OpUnsubscribeStore l).
Proof.
  assert (∀ x : State, ∃ extra, calls x = calls x ++ extra
            ∧ (extra = [] ∨ ∃ k, extra = registered k x)) as Hnone.
  { intros x. exists []. rewrite app_nil_r. auto. }
  assert (∀ k, wroteKey k s s' →
            (∃ extra, calls s' = calls s ++ extra
                      ∧ (extra = [] ∨ ∃ k, extra = registered k s))
            ∧ (storeListeners s' = storeListeners s
               ∨ ∃ l, op = OpSubscribeStore l ∨ op = OpUnsubscribeStore l))
    as Hwrote.
  { intros k Hw. split.
    - destruct (wroteKey_calls k s s' Hw) as (extra & Hc & [-> | ->]).
      + exists []. auto.
      + exists (registered k s). split; [done |]. right. by exists k.
    - left. by destruct (wroteKey_listeners k s s' Hw). }
  destruct op as [l|l|k l|k l|k v|cell k d|k|]; simpl.
  - intros [= <-]. split; [apply (Hnone s) |]. right. exists l. by left.
  - intros [= <-]. split; [apply (Hnone s) |]. right. exists l. by right.
  - intros H. destruct (subscribeState_after _ _ _ _ H) as [-> | [-> _]];
      (split; [apply (Hnone s) | by left]).
  - intros H. destruct (unsubscribeState_after _ _ _ _ H) as [-> | (ls & _ & ->)];
      (split; [apply (Hnone s) | by left]).
  - intros H. apply (Hwrote k). by apply (setStateBuilder_wroteKey k v).
  - intros H. apply (Hwrote k). by apply (useState_wroteKey cell k d).
  - intros [= <-]. split; [apply (Hnone s) | by left].
  - intros [= <-]. split; [apply (Hnone s) | by left].
Qed.

(** *** Invariants of the reachable states *)

Lemma stateAfter_subscribeState (k : string) (l : Listener) (s : State) :
  ∃ s', stateAfter (subscribeState k l s) = Some s'.
Proof.
  destruct (listeners s !! k) as [ls|] eqn:Hl.
  - rewrite (subscribeState_entry _ _ _ _ Hl). by eexists.
  - destruct (inherited k) eqn:Hk.
    + rewrite (subscribeState_inherited _ _ _ Hl Hk). by eexists.
    + rewrite (subscribeState_ordinary _ _ _ Hk). by eexists.
Qed.

Lemma stateAfter_unsubscribeState (k : string) (l : Listener) (s : State) :
  ∃ s', stateAfter (unsubscribeState k l s) = Some s'.
Proof.
  destruct (listeners s !! k) as [ls|] eqn:Hl.
  - rewrite (unsubscribeState_entry _ _ _ _ Hl). by eexists.
  - rewrite (unsubscribeState_no_entry _ _ _ Hl). by eexists.
Qed.

Lemma useState_proto_modelled (cell : option Memo) (d : Value) (s : State) :
  ∃ s', stateAfter (useState call cell "__proto__" d s) = Some s'.
Proof.
  rewrite useState_unfold.
  set (snapshot := getStateSnapshot "__proto__" s).
  destruct (recomputes cell (mkDeps snapshot d "__proto__")) eqn:Hr.
  - rewrite (useMemo_miss _ _ _ _ Hr). unfold bind.
    assert (∃ s', stateAfter (afterSnapshot call "__proto__" d snapshot s)
                  = Some s') as [s' Hs'].
    { destruct (store s !! "__proto__") as [x|] eqn:Hx.
      - unfold afterSnapshot.
        destruct (decide (snapshot = NotExists ∧ d ≠ VUndefined)) as [_|_].
        + assert (∀ v, ∃ s', stateAfter
                               ((assignStore "__proto__" v ;;
                                 notifyState "__proto__" ;; ret v) s)
                             = Some s') as Hstep.
          { intros v. unfold bind, assignStore.
            rewrite (set_own _ _ _ _ _ Hx).
            destruct (notifyState_cases "__proto__"
                        (setStore (<["__proto__":=v]> (store s)) s))
              as [-> | ->]; by eexists. }
          unfold bind at 1.
          destruct d; simpl; try (unfold ret at 1; by apply Hstep).
          destruct (call a []) as [v|e]; unfold ret at 1, throw;
            [apply Hstep | by eexists].
        + destruct (decide (snapshot = NotExists)); by eexists.
      - assert (snapshot ≠ NotExists) as Hsnap.
        { unfold snapshot.
          rewrite (getStateSnapshot_inherited _ _ Hx eq_refl).
          apply prototypeValue_not_sentinel. }
        rewrite afterSnapshot_idle by (by intros [H _]). by eexists. }
    destruct (afterSnapshot call "__proto__" d snapshot s) as [v s1|e s1|];
      simpl in *; [by eexists | by eexists | done].
  - destruct (useMemo_hit cell (afterSnapshot call "__proto__" d snapshot)
                (mkDeps snapshot d "__proto__") s Hr) as (m & _ & _ & ->).
    by eexists.
Qed.

(** The one operation without a successor state: a setter of [__proto__],
    on a store without such an entry, whose value is an object, a function or
    [null].  It installs the value as the prototype of the store. *)
Lemma perform_unmodelled (op : Operation) (s : State) :
  perform call op s = None →
  ∃ arg v, op = OpSetState "__proto__" arg
           ∧ store s !! "__proto__" = None
           ∧ newValue call "__proto__" arg s = Returned v
           ∧ replacesPrototype v = true.
Proof.
  destruct op as [l|l|k l|k l|k arg|cell k d|k|]; simpl; try done.
  - destruct (stateAfter_subscribeState k l s) as [s' ->]. done.
  - destruct (stateAfter_unsubscribeState k l s) as [s' ->]. done.
  - destruct (decide (k = "__proto__")) as [->|Hne].
    + destruct (newValue call "__proto__" arg s) as [v|e] eqn:Hv.
      * rewrite (setStateBuilder_newValue _ _ _ _ Hv).
        unfold bind, assignStore, set.
        destruct (store s !! "__proto__") as [x|] eqn:Hx.
        -- destruct (stateAfter_notifyState "__proto__"
                       (setStore (<["__proto__":=v]> (store s)) s))
             as [s' ->]. done.
        -- simpl. destruct (replacesPrototype v) eqn:Hrep.
           ++ intros _. by exists arg, v.
           ++ destruct (stateAfter_notifyState "__proto__" (setStore (store s) s))
                as [s' ->]. done.
      * destruct arg; simpl in Hv; try done.
        by rewrite (setStateBuilder_raises call "__proto__" a e s Hv).
    + destruct (setStateBuilder_modelled k arg s Hne) as [s' ->]. done.
  - destruct (decide (k = "__proto__")) as [->|Hne].
    + destruct (useState_proto_modelled cell d s) as [s' ->]. done.
    + destruct (useState_modelled cell k d s Hne) as [s' ->]. done.
Qed.

Lemma perform_listenersClean (op : Operation) (s s' : State) :
  listenersClean s → perform call op s = Some s' → listenersClean s'.
Proof.
  intros Hclean.
  assert (∀ k x, (inherited k = false ∨ is_Some (listeners s !! k)) →
            listenersClean (setListeners (<[k := x]> (listeners s)) s)) as Hins.
  { intros k x Hk k' Hk'. simpl.
    assert (inherited k = false) as Hord.
    { destruct Hk as [Hk | [y Hy]]; [done |].
      destruct (inherited k) eqn:Hi; [| done].
      rewrite (Hclean k Hi) in Hy. done. }
    rewrite lookup_insert_ne by congruence. by apply Hclean. }
  destruct op as [l|l|k l|k l|k v|cell k d|k|]; simpl.
  - by intros [= <-].
  - by intros [= <-].
  - intros H. destruct (subscribeState_after _ _ _ _ H) as [-> | [-> Hk]];
      [done | by apply Hins].
  - intros H.
    destruct (unsubscribeState_after _ _ _ _ H) as [-> | (ls & Hls & ->)];
      [done |]. apply Hins. right. by exists ls.
  - intros H k' Hk'.
    destruct (wroteKey_listeners k s s' (setStateBuilder_wroteKey k v s s' H))
      as [-> _]. by apply Hclean.
  - intros H k' Hk'.
    destruct (wroteKey_listeners k s s' (useState_wroteKey cell k d s s' H))
      as [-> _]. by apply Hclean.
  - intros [= <-] k' Hk'. simpl. rewrite lookup_delete.
    case_decide; [done | by apply Hclean].
  - by intros [= <-].
Qed.

Lemma perform_proto (op : Operation) (s s' : State) :
  store s !! "__proto__" = None → perform call op s = Some s' →
  store s' !! "__proto__" = None.
Proof.
  intros Hp. destruct op as [l|l|k l|k l|k v|cell k d|k|]; simpl.
  - by intros [= <-].
  - by intros [= <-].
  - intros H. by destruct (subscribeState_after _ _ _ _ H) as [-> | [-> _]].
  - intros H.
    by destruct (unsubscribeState_after _ _ _ _ H) as [-> | (ls & _ & ->)].
  - intros H. apply (wroteKey_proto k s s'); [| done].
    by apply (setStateBuilder_wroteKey k v).
  - intros H. apply (wroteKey_proto k s s'); [| done].
    by apply (useState_wroteKey cell k d).
  - intros [= <-]. simpl. rewrite lookup_delete. by case_decide.
  - by intros [= <-].
Qed.

Lemma perform_sentinelFree (op : Operation) (s s' : State) :
  symbolFromArguments call → callerOperation op → sentinelFree s →
  perform call op s = Some s' → sentinelFree s'.
Proof.
  intros Hcall Hop Hfree.
  destruct op as [l|l|k l|k l|k v|cell k d|k|]; simpl in *.
  - by intros [= <-].
  - by intros [= <-].
  - intros H. by destruct (subscribeState_after _ _ _ _ H) as [-> | [-> _]].
  - intros H.
    by destruct (unsubscribeState_after _ _ _ _ H) as [-> | (ls & _ & ->)].
  - by apply setStateBuilder_keeps_symbol_out.
  - by apply useState_keeps_symbol_out.
  - by apply deleteState_sentinelFree.
  - by intros [= <-].
Qed.

Lemma reachable_listenersClean (s : State) :
  reachable call s → listenersClean s.
Proof.
  induction 1 as [| s s' op _ IH _ Hstep].
  - intros k _. simpl. apply lookup_empty.
  - by apply (perform_listenersClean op s s').
Qed.

Lemma reachable_proto (s : State) :
  reachable call s → store s !! "__proto__" = None.
Proof.
  induction 1 as [| s s' op _ IH _ Hstep].
  - simpl. apply lookup_empty.
  - by apply (perform_proto op s s').
Qed.

(** X22.  In every state that operations with caller values reach from a
    fresh store while the prototype of the store is the original one (no
    setter call has assigned an object, a function or [null] under
    [__proto__]): no listener list exists under a name of
    [Object.prototype], the store has no entry [__proto__], and, when caller
    functions return the symbol of the module only if it is among their
    arguments, the store does not hold the symbol. *)
Theorem reachable_invariants (s : State) :
  reachable call s →
  listenersClean s
  ∧ store s !! "__proto__" = None
  ∧ (symbolFromArguments call → sentinelFree s).
Proof.
  intros Hreach. split; [by apply reachable_listenersClean |].
  split; [by apply reachable_proto |].
  intros Hcall. induction Hreach as [| s s' op _ IH Hop Hstep].
  - apply sentinelFree_initial.
  - by apply (perform_sentinelFree op s s').
Qed.

(** X23.  In every reachable state, a name of [Object.prototype] cannot be
    subscribed to: [subscribeState] throws a [TypeError] and registers
    nothing, and so does the notification of such a key; a setter of such a
    key other than [__proto__] stores its value and then throws. *)
Theorem prototype_names_throw (k : string) (l : Listener) (s : State) :
  reachable call s → inherited k = true →
  subscribeState k l s = Throw TypeError s
  ∧ notifyState k s = Throw TypeError s
  ∧ ∀ v, k ≠ "__proto__" → isFunction v = false →
         setStateBuilder call k v s
         = Throw TypeError (setStore (<[k:=v]> (store s)) s).
Proof.
  intros Hreach Hk.
  pose proof (reachable_listenersClean s Hreach k Hk) as Hl.
  split; [by apply subscribeState_inherited |].
  split; [by apply notifyState_inherited |].
  intros v Hne Hv. by apply setStateBuilder_value_inherited.
Qed.

(** X24.  In every state reached while the prototype of the store is the
    original one (no setter call has assigned an object, a function or
    [null] under [__proto__]), the setter of the key [__proto__] stores no
    primitive value: the call throws a [TypeError] from the notification and
    leaves the state as it was, and the key keeps reading as
    [Object.prototype]. *)
Theorem proto_setter_stores_nothing (v : Value) (s : State) :
  reachable call s → replacesPrototype v = false →
  setStateBuilder call "__proto__" v s = Throw TypeError s
  ∧ getStateSnapshot "__proto__" s = VObject (Intrinsic "Object.prototype").
Proof.
  intros Hreach Hv.
  pose proof (reachable_proto s Hreach) as Hp.
  pose proof (reachable_listenersClean s Hreach "__proto__" eq_refl) as Hl.
  split.
  - unfold setStateBuilder.
    assert (isFunction v = false) as -> by (by destruct v).
    unfold bind, assignStore, set. rewrite Hp; simpl. rewrite Hv.
    rewrite setStore_same. by apply notifyState_inherited.
  - by rewrite (getStateSnapshot_inherited _ _ Hp eq_refl).
Qed.

(** *** The whole store *)

(** X25.  The operations that both variants have neither read nor write the
    whole-store listeners, so they behave on the reduced store as on the full
    one; and the [useState] of the reduced variant, with its empty effect, is
    the [useState] of the full variant. *)
Theorem reduced_variant_agrees (k : string) (l : Listener) (arg d : Value)
    (cell : option Memo) :
  ignoresStoreListeners (subscribeState k l)
  ∧ ignoresStoreListeners (unsubscribeState k l)
  ∧ ignoresStoreListeners (setStateBuilder call k arg)
  ∧ ignoresStoreListeners (useState call cell k d)
  ∧ ignoresStoreListeners (deleteState k)
  ∧ ∀ s, Reduced.useState call cell k d s = useState call cell k d s.
Proof.
  split; [apply ignores_subscribeState |].
  split; [apply ignores_unsubscribeState |].
  split; [apply ignores_setStateBuilder |].
  split; [apply ignores_useState |].
  split; [apply ignores_deleteState |].
  apply Reduced_useState_eq.
Qed.

(** X26.  [useStore] returns the store as it is at the call: after a setter
    stored a value under a key (not a name of [Object.prototype]) the
    snapshot has that entry; a listener subscribed to the whole store before
    the setter is not among the listeners that ran. *)
Theorem useStore_after_set (k : string) (arg v : Value) (l : Listener)
    (s : State) :
  inherited k = false → newValue call k arg s = Returned v →
  (subscribeStore l ;; setStateBuilder call k arg ;; useStore) s
  = Return (<[k:=v]> (store s))
           {| store := <[k:=v]> (store s);
              listeners := listeners s;
              storeListeners := storeListeners s ++ [l];
              calls := calls s ++ registered k s |}.
Proof.
  intros Hk Hv. unfold bind at 1. unfold subscribeStore, modify at 1.
  set (s1 := setStoreListeners (storeListeners s ++ [l]) s).
  assert (newValue call k arg s1 = Returned v) as Hv1 by done.
  unfold bind. by rewrite (setStateBuilder_ordinary k arg v s1 Hk Hv1).
Qed.

End Coverage.

(** *** Instances *)


Lemma setStateBuilder_then_snapshot_witness :
  ∃ s', stateAfter (setStateBuilder exampleCall "toString" (VNumber 1)
                      initialState) = Some s'
        ∧ store s' !! "toString" = Some (VNumber 1)
        ∧ getStateSnapshot "toString" s' = VNumber 1.
Proof.
  apply (setStateBuilder_then_snapshot exampleCall "toString" (VNumber 1)
           (VNumber 1) initialState); [done | reflexivity].
Defined.

Lemma setStateBuilder_notifies_key_witness :
  setStateBuilder exampleCall "a" (VNumber 1) subscribedState
  = Return tt {| store := <["a" := VNumber 1]> (store subscribedState);
                 listeners := listeners subscribedState;
                 storeListeners := storeListeners subscribedState;
                 calls := calls subscribedState ++ registered "a" subscribedState |}.
Proof.
  apply (setStateBuilder_notifies_key exampleCall "a" (VNumber 1) (VNumber 1)
           subscribedState); reflexivity.
Defined.


Lemma other_keys_untouched_witness :
  ∃ s', stateAfter (setStateBuilder exampleCall "toString" (VNumber 1)
                      subscribedState) = Some s'
        ∧ store s' !! "a" = store subscribedState !! "a"
        ∧ getStateSnapshot "a" s' = getStateSnapshot "a" subscribedState
        ∧ listeners s' = listeners subscribedState.
Proof.
  assert ("toString" ≠ "__proto__") as Hproto by done.
  assert ("a" ≠ "toString") as Hne by done.
  exact (proj1 (other_keys_untouched exampleCall "toString" "a" (VNumber 1)
                  VUndefined None subscribedState Hproto Hne)).
Defined.

Lemma setStateBuilder_updaters_compose_witness :
  (setStateBuilder exampleCall "n" (VFunction (Alloc 3)) ;;
   setStateBuilder exampleCall "n" (VFunction (Alloc 3)))
    (setStore {["n" := VNumber 0]} initialState)
  = Return tt
      {| store := <["n" := VNumber 2]>
                    (store (setStore {["n" := VNumber 0]} initialState));
         listeners := listeners (setStore {["n" := VNumber 0]} initialState);
         storeListeners :=
           storeListeners (setStore {["n" := VNumber 0]} initialState);
         calls :=
           (calls (setStore {["n" := VNumber 0]} initialState)
            ++ registered "n" (setStore {["n" := VNumber 0]} initialState))
           ++ registered "n" (setStore {["n" := VNumber 0]} initialState) |}.
Proof.
  apply (setStateBuilder_updaters_compose exampleCall "n" (Alloc 3) (Alloc 3)
           (VNumber 1) (VNumber 2) (setStore {["n" := VNumber 0]} initialState));
    [reflexivity | vm_compute; reflexivity | reflexivity].
Defined.


Lemma deleteState_silences_listeners_witness :
  (deleteState "a" ;; setStateBuilder exampleCall "a" (VNumber 1))
    subscribedState
  = Return tt {| store := <["a" := VNumber 1]> (store subscribedState);
                 listeners := delete "a" (listeners subscribedState);
                 storeListeners := storeListeners subscribedState;
                 calls := calls subscribedState |}.
Proof.
  apply (deleteState_silences_listeners exampleCall "a" (VNumber 1)
           subscribedState); reflexivity.
Defined.

Lemma subscribe_unsubscribe_restores_witness :
  (subscribeState "a" 2 ;; unsubscribeState "a" 2) subscribedState
  = Return tt {| store := store subscribedState;
                 listeners := <["a" := registered "a" subscribedState]>
                                (listeners subscribedState);
                 storeListeners := storeListeners subscribedState;
                 calls := calls subscribedState |}.
Proof.
  apply (subscribe_unsubscribe_restores "a" 2 subscribedState);
    [reflexivity |].
  assert (registered "a" subscribedState = [1]) as ->
    by (vm_compute; reflexivity).
  apply not_elem_of_cons. split; [done | apply not_elem_of_nil].
Defined.

Lemma duplicate_subscription_witness :
  (subscribeState "a" 2 ;; subscribeState "a" 2 ;; unsubscribeState "a" 2)
    subscribedState
  = Return tt (setListeners
                 (<["a" := filter (λ x, x ≠ 2) (registered "a" subscribedState)]>
                    (listeners subscribedState)) subscribedState).
Proof.
  exact (proj2 (duplicate_subscription "a" 2 subscribedState eq_refl)).
Defined.

Lemma useState_returns_stored_value_witness :
  ∃ cell', useState exampleCall None "k" (VString "other") mountedState
           = Return (VString "d", cell') mountedState
           ∧ cellSound exampleCall cell'.
Proof.
  apply (useState_returns_stored_value exampleCall None "k" (VString "other")
           (VString "d") mountedState);
    [vm_compute; reflexivity | done | apply cellSound_None].
Defined.

Lemma useState_default_once_witness :
  ∃ v c1 s1,
    useState exampleCall None "k" (VString "d") initialState
    = Return (v, c1) s1
    ∧ store s1 !! "k" = Some v
    ∧ (v ≠ NotExists →
       ∀ d2, (∃ c2, useState exampleCall c1 "k" d2 s1 = Return (v, c2) s1)
             ∧ (∃ c2, useState exampleCall None "k" d2 s1 = Return (v, c2) s1)).
Proof.
  apply (useState_default_once exampleCall None "k" (VString "d") initialState);
    [done | vm_compute; reflexivity].
Defined.


Lemma useState_producer_throws_witness :
  useState exampleCall None "k" (VFunction (Alloc 1)) initialState
  = Throw (Thrown (VString "boom")) initialState.
Proof.
  apply (useState_producer_throws exampleCall None "k" (Alloc 1)
           (VString "boom") initialState);
    [apply lookup_empty | reflexivity | apply cellSound_None | reflexivity].
Defined.




Lemma exampleCall_symbolFromArguments : symbolFromArguments exampleCall.
Proof.
  intros f args H.
  destruct f as [name|[|[|[|[|n]]]]]; simpl in H; try done.
  - destruct args as [|v args]; [done |]. injection H as ->.
    apply list_elem_of_here.
  - destruct args as [|[] args]; done.
Defined.

Lemma sentinelFree_mountedState : sentinelFree mountedState.
Proof.
  intros k H. simpl in H. apply lookup_singleton_Some in H as [_ H]. done.
Defined.

Lemma sentinel_never_escapes_witness :
  symbolFromArguments exampleCall
  ∧ sentinelFree mountedState
  ∧ readStore "k" mountedState ≠ NotExists
  ∧ (VString "d" ≠ NotExists ∧ sentinelFree mountedState)
  ∧ sentinelFree (setStore {["k" := VString "d"; "n" := VUndefined]}
                           initialState).
Proof.
  assert (useState exampleCall None "k" (VString "x") mountedState
          = Return (VString "d",
                    Some (mkMemo (mkDeps (VString "d") (VString "x") "k")
                                 (VString "d")))
                   mountedState) as Hrender by (vm_compute; reflexivity).
  assert (stateAfter (setStateBuilder exampleCall "n" (VFunction (Alloc 0))
                        mountedState)
          = Some (setStore {["k" := VString "d"; "n" := VUndefined]}
                           initialState)) as Hset
    by (vm_compute; reflexivity).
  destruct (sentinel_never_escapes exampleCall mountedState
              exampleCall_symbolFromArguments sentinelFree_mountedState)
    as (Hread & Huse & Hsetter).
  split; [exact exampleCall_symbolFromArguments |].
  split; [exact sentinelFree_mountedState |].
  split; [exact (Hread "k") |].
  split.
  - assert (callerValue (VString "x")) as Hd by done.
    exact (Huse None "k" (VString "x") _ _ _ Hd (cellSound_None exampleCall)
             Hrender).
  - assert (callerValue (VFunction (Alloc 0))) as Harg by done.
    exact (Hsetter "n" (VFunction (Alloc 0)) _ Harg Hset).
Defined.

Lemma operations_call_key_listeners_only_witness :
  ∃ extra,
    calls {| store := {["a" := VNumber 1]}; listeners := {["a" := [1]]};
             storeListeners := []; calls := [1] |}
    = calls subscribedState ++ extra
    ∧ (extra = [] ∨ ∃ k, extra = registered k subscribedState).
Proof.
  assert (perform exampleCall (OpSetState "a" (VNumber 1)) subscribedState
          = Some {| store := {["a" := VNumber 1]}; listeners := {["a" := [1]]};
                    storeListeners := []; calls := [1] |}) as Hrun
    by (vm_compute; reflexivity).
  exact (proj1 (operations_call_key_listeners_only exampleCall
                  (OpSetState "a" (VNumber 1)) subscribedState _ Hrun)).
Defined.

Lemma reachable_invariants_witness :
  listenersClean mountedState
  ∧ store mountedState !! "__proto__" = None
  ∧ sentinelFree mountedState.
Proof.
  assert (reachable exampleCall mountedState) as Hreach.
  { apply (reachable_step exampleCall initialState mountedState
             (OpUseState None "k" (VString "d")));
      [apply reachable_initial | done | vm_compute; reflexivity]. }
  destruct (reachable_invariants exampleCall mountedState Hreach)
    as (Hclean & Hproto & Hfree).
  split; [exact Hclean |]. split; [exact Hproto |].
  exact (Hfree exampleCall_symbolFromArguments).
Defined.

Lemma prototype_names_throw_witness :
  subscribeState "toString" 1 subscribedState = Throw TypeError subscribedState.
Proof.
  assert (reachable exampleCall subscribedState) as Hreach.
  { apply (reachable_step exampleCall initialState subscribedState
             (OpSubscribeState "a" 1));
      [apply reachable_initial | done | vm_compute; reflexivity]. }
  exact (proj1 (prototype_names_throw exampleCall "toString" 1 subscribedState
                  Hreach eq_refl)).
Defined.

Lemma proto_setter_stores_nothing_witness :
  setStateBuilder exampleCall "__proto__" (VString "x") mountedState
  = Throw TypeError mountedState
  ∧ getStateSnapshot "__proto__" mountedState
    = VObject (Intrinsic "Object.prototype").
Proof.
  apply (proto_setter_stores_nothing exampleCall (VString "x") mountedState);
    [| reflexivity].
  apply (reachable_step exampleCall initialState mountedState
           (OpUseState None "k" (VString "d")));
    [apply reachable_initial | done | vm_compute; reflexivity].
Defined.

Lemma useStore_after_set_witness :
  (subscribeStore 7 ;; setStateBuilder exampleCall "a" (VNumber 1) ;; useStore)
    subscribedState
  = Return (<["a" := VNumber 1]> (store subscribedState))
           {| store := <["a" := VNumber 1]> (store subscribedState);
              listeners := listeners subscribedState;
              storeListeners := storeListeners subscribedState ++ [7];
              calls := calls subscribedState ++ registered "a" subscribedState |}.
Proof.
  apply (useStore_after_set exampleCall "a" (VNumber 1) (VNumber 1) 7
           subscribedState); reflexivity.
Defined.
